(** * Sorted-spikes likelihoods of non_local_detector: GLM and KDE encoding models

    A shallow embedding of
      - [src/non_local_detector/likelihoods/sorted_spikes_kde.py]
      - [src/non_local_detector/likelihoods/sorted_spikes_glm_jax.py]
    and the properties of the two backends.

    Numbers are IEEE 754 binary floating-point values, [spec_float] of the
    Standard Library, for an arbitrary format [prec]/[emax] (NumPy arrays are
    binary64, JAX arrays binary32 unless x64 is enabled).  Arithmetic and
    comparisons are the library's [SFadd], [SFmul], [SFdiv], [SFltb], ...;
    the transcendental and statistical functions of NumPy, SciPy and JAX
    ([exp], [log], [xlogy], the Poisson log-PMF), the optimiser and patsy's
    design-matrix builder are parameters of the development.

    Python exceptions are values of the type [res].  Arrays are lists (of
    rows, for two dimensions); the spike counts are integers.  The functions
    are modelled on arrays of the documented ranks; where NumPy or JAX check
    or broadcast shapes at run time, the check is part of the model. *)

From Stdlib Require Import ZArith Bool Lia.
From Stdlib Require Import Floats.SpecFloat.
From stdpp Require Import base option list gmap.

Set Default Proof Using "Type".

(** ** Exceptions *)

Inductive exn :=
| TypeError
| ValueError
| IndexError
| ZeroDivisionError
| PatsyError.

Inductive res (A : Type) :=
| Ok (a : A)
| Raise (e : exn).
Arguments Ok {A} a.
Arguments Raise {A} e.

Definition res_bind {A B} (m : res A) (k : A -> res B) : res B :=
  match m with
  | Ok a => k a
  | Raise e => Raise e
  end.

Notation "x <-! m ; k" := (res_bind m (fun x => k))
  (at level 100, m at next level, right associativity).

(** [for x in xs: acc = body(acc, x)], stopping at the first exception. *)
Fixpoint for_loop {A S} (xs : list A) (body : S -> A -> res S) (acc : S) : res S :=
  match xs with
  | [] => Ok acc
  | x :: xs' => acc' <-! body acc x ; for_loop xs' body acc'
  end.

(** [[f(x) for x in xs]], stopping at the first exception. *)
Fixpoint map_res {A B} (f : A -> res B) (xs : list A) : res (list B) :=
  match xs with
  | [] => Ok []
  | x :: xs' => y <-! f x ; ys <-! map_res f xs' ; Ok (y :: ys)
  end.

(** ** Arrays *)

Abbreviation float := spec_float.
Abbreviation vec := (list float).
(** A two-dimensional array, as the list of its rows. *)
Abbreviation mat := (list (list float)).

Definition NaN : float := S754_nan.
Definition pos_zero : float := S754_zero false.

Definition is_nan (x : float) : bool :=
  match x with
  | S754_nan => true
  | _ => false
  end.

(** [range(start, stop, step)] for a positive [step]. *)
Fixpoint range_from (fuel start stop step : nat) : list nat :=
  match fuel with
  | 0 => []
  | S fuel' =>
      if start <? stop then start :: range_from fuel' (start + step) stop step
      else []
  end.

Definition py_range (stop step : nat) : res (list nat) :=
  if step =? 0 then Raise ValueError
  else Ok (range_from stop 0 stop step).

(** [a[start:start + size]]: a Python slice stops at the end of the array. *)
Definition py_slice {A} (a : list A) (start size : nat) : list A :=
  take size (drop start a).

(** [a[mask]] for a boolean [mask] over the first axis. *)
Fixpoint select {A} (mask : list bool) (a : list A) : list A :=
  match mask, a with
  | b :: mask', x :: a' => if b then x :: select mask' a' else select mask' a'
  | _, _ => []
  end.

Definition mask_select {A} (mask : list bool) (a : list A) : res (list A) :=
  if length mask =? length a then Ok (select mask a) else Raise IndexError.

(** The array after [a[mask] = values], or [a.at[mask].set(values)] of JAX,
    with one value per selected position, as the fit has them. *)
Fixpoint scatter {A} (mask : list bool) (a values : list A) : list A :=
  match mask, a with
  | b :: mask', x :: a' =>
      if b then
        match values with
        | v :: values' => v :: scatter mask' a' values'
        | [] => x :: scatter mask' a' []
        end
      else x :: scatter mask' a' values
  | _, _ => a
  end.

(** The array after [a[mask] = c] for a scalar [c]. *)
Fixpoint mask_fill {A} (mask : list bool) (a : list A) (c : A) : list A :=
  match mask, a with
  | b :: mask', x :: a' => (if b then c else x) :: mask_fill mask' a' c
  | _, _ => a
  end.

(** A two-dimensional array whose two extents both matter, also when one of
    them is zero: the spike counts [time x neuron] and the stacked place
    fields [neuron x bin]. *)
Record array2 (A : Type) := Array2 {
  n_rows : nat;
  n_cols : nat;
  rows : list (list A)
}.
Arguments Array2 {A} _ _ _.
Arguments n_rows {A} _.
Arguments n_cols {A} _.
Arguments rows {A} _.

Definition wf_array2 {A} (a : array2 A) : Prop :=
  length (rows a) = n_rows a /\ Forall (fun r => length r = n_cols a) (rows a).

(** [a.T], as the list of the columns of [a]. *)
Definition columns {A} (d : A) (a : array2 A) : list (list A) :=
  (fun j => (fun r => nth j r d) <$> rows a) <$> seq 0 (n_cols a).

(** [stack(arrays, axis=0)] of one-dimensional arrays of one length. *)
Definition stack {A} (arrays : list (list A)) : res (array2 A) :=
  match arrays with
  | [] => Raise ValueError
  | a :: _ =>
      if forallb (fun b => length b =? length a) arrays
      then Ok (Array2 (length arrays) (length a) arrays)
      else Raise ValueError
  end.

(** A JAX array of rank 0 or 1: [squeeze] turns a one-element vector into a
    scalar, and the two are told apart by the shape rules of [jax.lax]. *)
Inductive jarray :=
| Rank0 (x : float)
| Rank1 (l : vec).

Definition squeeze (a : jarray) : jarray :=
  match a with
  | Rank1 [x] => Rank0 x
  | _ => a
  end.

(** Iterating over a JAX array, as [zip] does: a 0-d array is not iterable. *)
Definition jiter (a : jarray) : res vec :=
  match a with
  | Rank0 _ => Raise TypeError
  | Rank1 l => Ok l
  end.

(** [jax.lax.dynamic_update_slice(operand, update, (start,))] on a vector:
    the update has the rank of the operand and is no longer than it; the
    start index is clamped so that the update fits. *)
Definition dynamic_update_slice (operand : vec) (update : jarray) (start : nat)
  : res vec :=
  match update with
  | Rank0 _ => Raise TypeError
  | Rank1 u =>
      if length operand <? length u then Raise TypeError
      else
        let s := start `min` (length operand - length u) in
        Ok (take s operand ++ u ++ drop (s + length u) operand)
  end.

(** The shape of two lengths broadcast against each other. *)
Definition broadcast_len (a b : nat) : res nat :=
  if a =? b then Ok a
  else if a =? 1 then Ok b
  else if b =? 1 then Ok a
  else Raise ValueError.

(** Entry [j] of a vector broadcast to a longer one. *)
Definition bc_nth {A} (d : A) (l : list A) (j : nat) : A :=
  match l with
  | [x] => x
  | _ => nth j l d
  end.

(** [f(a, b)] elementwise with broadcasting of one-dimensional arrays. *)
Definition broadcast_with {A B C} (da : A) (db : B) (f : A -> B -> C)
  (a : list A) (b : list B) : res (list C) :=
  n <-! broadcast_len (length a) (length b) ;
  Ok ((fun j => f (bc_nth da a j) (bc_nth db b j)) <$> seq 0 n).

(** ** Numerics *)

(** The floating-point format and the library functions the two modules
    import: [EPS = 1e-15] rounded to the format, [exp] and [log] of
    NumPy/jax.numpy, the constant [pi], [jax.scipy.special.xlogy], and the
    Poisson log-PMF of [jax.scipy.stats] and of [scipy.stats]. *)
Class Numerics := {
  prec : Z;
  emax : Z;
  EPS : float;
  EPS_pos : SFltb pos_zero EPS = true;
  f_exp : float -> float;
  f_log : float -> float;
  f_pi : float;
  xlogy : float -> float -> float;
  jax_poisson_logpmf : float -> float -> float;
  scipy_poisson_logpmf : float -> float -> float
}.

Section Arithmetic.
Context `{Numerics}.

Definition fadd : float -> float -> float := SFadd prec emax.
Definition fsub : float -> float -> float := SFsub prec emax.
Definition fmul : float -> float -> float := SFmul prec emax.
Definition fdiv : float -> float -> float := SFdiv prec emax.
Definition fsqrt : float -> float := SFsqrt prec emax.

(** An integer converted to the format, rounded to nearest even. *)
Definition of_Z (z : Z) : float := binary_normalize prec emax z 0 false.
Definition of_nat (n : nat) : float := of_Z (Z.of_nat n).

Definition one : float := of_Z 1.
Definition two : float := of_Z 2.
Definition minus_one : float := of_Z (-1).
Definition minus_half : float := binary_normalize prec emax (-1) (-1) false.

(** [x > 0.0] *)
Definition is_pos (x : float) : bool := SFltb pos_zero x.

(** [maximum(x, y)] of NumPy and JAX: a NaN operand gives NaN. *)
Definition maximum (x y : float) : float :=
  if is_nan x then x
  else if is_nan y then y
  else if SFltb x y then y else x.

(** [clip(x, a_min=a_min, a_max=None)] *)
Definition clip_min (x a_min : float) : float := maximum x a_min.

(** [sum(v)] and [mean(v)] of a vector. *)
Definition fsum (v : vec) : float := foldl fadd pos_zero v.
Definition fmean (v : vec) : float := fdiv (fsum v) (of_nat (length v)).

(** [zeros((n,))] *)
Definition zeros (n : nat) : vec := replicate n pos_zero.

(** [v @ w] for two vectors of one length. *)
Definition dot (v w : vec) : float := fsum (zip_with fmul v w).
End Arithmetic.

(** ** sorted_spikes_kde.py *)

Module KDE.
Section Defs.
Context `{Numerics}.

Definition gaussian_pdf (x mean sigma : float) : float :=
  let z := fdiv (fsub x mean) sigma in
  fdiv (f_exp (fmul minus_half (fmul z z)))
       (fmul sigma (fsqrt (fmul two f_pi))).

(** The array [distance] of [kde], of shape (samples, eval_points), is kept
    by evaluation point: one list, over the samples, per evaluation point.
    Both the shape (0, m) and the shape (n, 0) are represented. *)
Definition distance_ones (eval_points samples : mat) : list vec :=
  (fun _ => (fun _ => one) <$> samples) <$> eval_points.

(** One turn of the loop of [kde]:
    [distance *= gaussian_pdf(eval_points[:, dim_ind][None, :],
                              samples[:, dim_ind][:, None], std)].
    Both arrays have one column per bandwidth. *)
Definition kde_dim (eval_points samples : mat) (distance : list vec)
  (dim : nat * float) : list vec :=
  zip_with
    (fun e col =>
       zip_with
         (fun s d => fmul d (gaussian_pdf (nth dim.1 e NaN) (nth dim.1 s NaN) dim.2))
         samples col)
    eval_points distance.

(** [enumerate(std)] *)
Definition enumerate {A} (l : list A) : list (nat * A) := imap pair l.

Definition kde (eval_points samples : mat) (std : vec) : jarray :=
  let distance :=
    foldl (kde_dim eval_points samples)
          (distance_ones eval_points samples) (enumerate std) in
  squeeze (Rank1 (fmean <$> distance)).

(** The result is the rank-1 array [density].  The block size is a natural
    number; [range] refuses the step 0.  A negative step, under which
    [range] is empty, is outside the model. *)
Definition block_kde (eval_points samples : mat) (std : vec) (block_size : nat)
  : res vec :=
  let n_eval_points := length eval_points in
  starts <-! py_range n_eval_points block_size ;
  for_loop starts
    (fun density start_ind =>
       dynamic_update_slice density
         (squeeze (kde (py_slice eval_points start_ind block_size) samples std))
         start_ind)
    (zeros n_eval_points).

(** The bandwidth of a [KDEModel]: a Python number, or an array with one
    entry per dimension. *)
Inductive bandwidth :=
| StdScalar (s : float)
| StdArray (s : vec).

(** A fitted [KDEModel]: the dataclass fields and [samples_]. *)
Record KDEModel := {
  std : bandwidth;
  block_size : option nat;
  samples_ : mat
}.

(** [KDEModel(std=std, block_size=block_size).fit(samples)] for
    two-dimensional [samples]. *)
Definition KDEModel_fit (s : bandwidth) (bs : option nat) (samples : mat)
  : KDEModel :=
  {| std := s; block_size := bs; samples_ := samples |}.

(** [eval_points.shape[1]]; an array without rows does not record it, and
    [block_kde] does not read the bandwidths then. *)
Definition n_dims (a : mat) : nat :=
  match a with
  | [] => 0
  | r :: _ => length r
  end.

(** [KDEModel.predict(eval_points)] for two-dimensional [eval_points]: a
    scalar bandwidth is repeated for every dimension, and without a block
    size all the points make one block. *)
Definition KDEModel_predict (m : KDEModel) (eval_points : mat) : res vec :=
  let s :=
    match std m with
    | StdScalar x => replicate (n_dims eval_points) x
    | StdArray v => v
    end in
  let bs :=
    match block_size m with
    | None => length eval_points
    | Some b => b
    end in
  block_kde eval_points (samples_ m) s bs.

(** [astype(bool)] of a spike count. *)
Definition to_bool (z : Z) : bool := negb (z =? 0)%Z.

(** [jnp.mean(spikes, axis=0)] *)
Definition mean_axis0 (spikes : array2 Z) : vec :=
  (fun col => fmean (of_Z <$> col)) <$> columns 0%Z spikes.

(** [jnp.clip(neuron_mean_rate
              * jnp.where(occupancy > 0.0, marginal_density / occupancy, EPS),
              a_min=EPS, a_max=None)] *)
Definition kde_rate (neuron_mean_rate : float) (occupancy marginal_density : vec)
  : vec :=
  (fun r => clip_min (fmul neuron_mean_rate r) EPS) <$>
    zip_with (fun occ md => if is_pos occ then fdiv md occ else EPS)
             occupancy marginal_density.

(** [jnp.sum(place_fields, axis=0)] *)
Definition sum_axis0 (a : array2 float) : vec :=
  (fun col => fsum col) <$> columns NaN a.

Record KDEEncodingModel := {
  marginal_models : list KDEModel;
  occupancy_model : KDEModel;
  occupancy : vec;
  mean_rates : jarray;
  place_fields : array2 float;
  no_spike_part_log_likelihood : vec;
  is_track_interior : list bool
}.

(** The body of the loop over the neurons of the fit: the marginal model
    and the place field of one neuron. *)
Definition fit_neuron (position place_bin_centers : mat)
  (is_interior : list bool) (position_std : bandwidth) (bs : option nat)
  (occ : vec) (neuron : list bool * float) : res (KDEModel * vec) :=
  let '(neuron_spikes, neuron_mean_rate) := neuron in
  spike_position <-! mask_select neuron_spikes position ;
  let neuron_marginal_model := KDEModel_fit position_std bs spike_position in
  interior_centers <-! mask_select is_interior place_bin_centers ;
  marginal_density <-! KDEModel_predict neuron_marginal_model interior_centers ;
  let place_field := zeros (length is_interior) in
  Ok (neuron_marginal_model,
      scatter is_interior place_field
              (kde_rate neuron_mean_rate occ marginal_density)).

(** The progress bar and the unused [*args] and [**kwargs] are left out; the
    returned dictionary is the record [KDEEncodingModel]. *)
Definition fit_sorted_spikes_kde_encoding_model
  (position : mat) (spikes : array2 Z) (place_bin_centers : mat)
  (is_interior : list bool) (position_std : bandwidth) (bs : option nat)
  : res KDEEncodingModel :=
  let occ_model := KDEModel_fit position_std bs position in
  interior_centers <-! mask_select is_interior place_bin_centers ;
  occ <-! KDEModel_predict occ_model interior_centers ;
  let rates := squeeze (Rank1 (mean_axis0 spikes)) in
  rate_list <-! jiter rates ;
  fitted <-! map_res
    (fit_neuron position place_bin_centers is_interior position_std bs occ)
    (zip ((fun col : list Z => to_bool <$> col) <$> columns 0%Z spikes) rate_list) ;
  fields <-! stack (snd <$> fitted) ;
  Ok {| marginal_models := fst <$> fitted;
        occupancy_model := occ_model;
        occupancy := occ;
        mean_rates := rates;
        place_fields := fields;
        no_spike_part_log_likelihood := sum_axis0 fields;
        is_track_interior := is_interior |}.

(** [a op v[newaxis]] once the widths are broadcast to [n]: every row of
    [a] against the vector [v]. *)
Definition rows_with {A} (da : A) (f : A -> float -> float)
  (v : list A) (n : nat) (a : mat) : mat :=
  (fun row => (fun j => f (bc_nth da v j) (bc_nth NaN row j)) <$> seq 0 n) <$> a.

(** One turn of the non-local loop:
    [log_likelihood += xlogy(neuron_spikes[:, None], place_field[None])]. *)
Definition add_outer (term : float -> float -> float)
  (log_likelihood : mat) (neuron : list Z * vec) : mat :=
  zip_with
    (fun row s => zip_with (fun l pf => fadd l (term (of_Z s) pf)) row neuron.2)
    log_likelihood neuron.1.

(** One turn of the local loop of the KDE predictor. *)
Definition local_step (position : mat) (occ : vec) (log_likelihood : vec)
  (neuron : list Z * KDEModel * float) : res vec :=
  let '(neuron_spikes, neuron_marginal_model, neuron_mean_rate) := neuron in
  marginal_density <-! KDEModel_predict neuron_marginal_model position ;
  let local_rate := kde_rate neuron_mean_rate occ marginal_density in
  logp <-! broadcast_with 0%Z NaN (fun s r => xlogy (of_Z s) r)
                          neuron_spikes local_rate ;
  contribution <-! broadcast_with NaN NaN fsub logp local_rate ;
  broadcast_with NaN NaN fadd log_likelihood contribution.

Definition predict_sorted_spikes_kde_log_likelihood
  (position : mat) (spikes : array2 Z) (m : KDEEncodingModel) (is_local : bool)
  : res mat :=
  let n_time := n_rows spikes in
  if is_local then
    occ <-! KDEModel_predict (occupancy_model m) position ;
    rate_list <-! jiter (mean_rates m) ;
    log_likelihood <-! for_loop
      (zip (zip (columns 0%Z spikes) (marginal_models m)) rate_list)
      (local_step position occ) (zeros n_time) ;
    Ok ((fun l => [l]) <$> log_likelihood)
  else
    let log_likelihood :=
      foldl (add_outer xlogy)
            (replicate n_time (zeros (n_cols (place_fields m))))
            (zip (columns 0%Z spikes) (rows (place_fields m))) in
    n <-! broadcast_len (n_cols (place_fields m))
                        (length (no_spike_part_log_likelihood m)) ;
    let log_likelihood :=
      rows_with NaN (fun c l => fsub l c)
                (no_spike_part_log_likelihood m) n log_likelihood in
    n' <-! broadcast_len (length (is_track_interior m)) n ;
    Ok (rows_with true
          (fun (interior : bool) l => if interior then l else f_log EPS)
          (is_track_interior m) n' log_likelihood).
End Defs.
End KDE.

(** ** sorted_spikes_glm_jax.py *)

Module GLM.

(** The result object of [scipy.optimize.minimize]. *)
Record OptimizeResult := {
  x : vec;
  success : bool
}.

(** What the module takes from patsy, SciPy and JAX:
    - [make_spline_design_matrix]: the training design matrix of
      [dmatrix(formula, data)] with its [design_info] (the knots come from
      [get_n_bins] of the environment module);
    - [build_design_matrices]: [build_design_matrices([design_info],
      predict_data)[0]], where [predict_data] holds the columns of the
      position array;
    - [minimize]: [scipy.optimize.minimize(fun, x0=x0, method="BFGS", jac=jac)];
    - [grad]: [jax.grad]. *)
Class Externals := {
  design_info : Type;
  make_spline_design_matrix : mat -> mat -> float -> res (design_info * mat);
  build_design_matrices : design_info -> mat -> res mat;
  minimize : (vec -> float) -> vec -> (vec -> vec) -> OptimizeResult;
  grad : (vec -> float) -> vec -> vec
}.

(** NumPy arrays are objects: a position array is a reference into the
    store of the arrays of the caller. *)
Definition loc := positive.
Abbreviation store := (gmap loc mat).

Section Defs.
Context `{Numerics} `{Externals}.

(** Modelled from the spec: [non_local_detector.core.atleast_2d] is imported
    and not part of the sources.  The specification gives position arrays as
    [T x D] (section 6); on an array that already has two dimensions the
    promotion has nothing to do and gives the array itself, the same
    object. *)
Definition atleast_2d (position : loc) : loc := position.

(** [np.any(np.isnan(position), axis=1)] *)
Definition any_isnan (position : mat) : list bool := existsb is_nan <$> position.

(** The array after [a[mask] = c] for a boolean [mask] over the rows and a
    scalar [c]: every entry of a selected row is [c]. *)
Definition fill_rows (mask : list bool) (a : mat) (c : float) : mat :=
  zip_with (fun (b : bool) (row : vec) => if b then (fun _ => c) <$> row else row)
           mask a.

(** The call returns the store after it and its result; [None] when
    [position] is not an array of the store. *)
Definition make_spline_predict_matrix (info : design_info) (position : loc)
  (st : store) : option (store * res mat) :=
  let position := atleast_2d position in
  a ← st !! position ;
  let is_nan := any_isnan a in
  let a := fill_rows is_nan a pos_zero in
  let st := <[position := a]> st in
  Some (st,
        design_matrix <-! build_design_matrices info a ;
        if length is_nan =? length design_matrix
        then Ok (fill_rows is_nan design_matrix NaN)
        else Raise IndexError).

(** [design_matrix @ coefficients] *)
Definition matvec (design_matrix : mat) (coefficients : vec) : vec :=
  (fun row => dot row coefficients) <$> design_matrix.

(** The objective [neglogp] of [fit_poisson_regression], on a design matrix
    with one row per spike count and per weight and one column per
    coefficient, as the fit hands them over; shapes that JAX would broadcast
    or refuse are outside the model. *)
Definition neglogp (design_matrix : mat) (spikes weights : vec)
  (l2_penalty : float) (coefficients : vec) : float :=
  let conditional_intensity := f_exp <$> matvec design_matrix coefficients in
  let conditional_intensity :=
    (fun r => clip_min r EPS) <$> conditional_intensity in
  let negative_log_likelihood :=
    fmul minus_one
         (fmean (zip_with fmul weights
                   (zip_with jax_poisson_logpmf spikes conditional_intensity))) in
  let l2_penalty_term :=
    fmul l2_penalty (fsum ((fun c => fmul c c) <$> drop 1 coefficients)) in
  fadd negative_log_likelihood l2_penalty_term.

(** [np.average(a, weights=weights)] *)
Definition average (a weights : vec) : res float :=
  if negb (length a =? length weights) then Raise TypeError
  else
    let scl := fsum weights in
    if SFeqb scl pos_zero then Raise ZeroDivisionError
    else Ok (fdiv (fsum (zip_with fmul a weights)) scl).

(** [np.zeros(n)] for a Python integer [n]. *)
Definition np_zeros (n : Z) : res vec :=
  if (n <? 0)%Z then Raise ValueError else Ok (zeros (Z.to_nat n)).

Definition initial_condition (design_matrix : mat) (spikes weights : vec)
  : res vec :=
  avg <-! average spikes weights ;
  rest <-! np_zeros (Z.of_nat (KDE.n_dims design_matrix) - 1) ;
  Ok ([f_log avg] ++ rest).

Definition fit_poisson_regression (design_matrix : mat) (spikes weights : vec)
  (l2_penalty : float) : res vec :=
  let objective := neglogp design_matrix spikes weights l2_penalty in
  let dlike := grad objective in
  x0 <-! initial_condition design_matrix spikes weights ;
  let result := minimize objective x0 dlike in
  Ok (x result).

Record GLMEncodingModel := {
  coefficients : array2 float;
  emission_design_info : design_info;
  place_fields : array2 float;
  is_track_interior : list bool
}.

(** [emission_predict_matrix @ coef] of NumPy, which checks the shapes. *)
Definition np_matvec (m : mat) (v : vec) : res vec :=
  if forallb (fun row : vec => length row =? length v) m
  then Ok (matvec m v) else Raise ValueError.

(** The body of the loop over the neurons of the fit. *)
Definition fit_neuron (emission_design_matrix emission_predict_matrix : mat)
  (weights : vec) (is_interior : list bool) (l2_penalty : float)
  (neuron_spikes : list Z) : res (vec * vec) :=
  coef <-! fit_poisson_regression emission_design_matrix
             (of_Z <$> neuron_spikes) weights l2_penalty ;
  linear <-! np_matvec emission_predict_matrix coef ;
  let place_field := f_exp <$> linear in
  if negb (length is_interior =? length place_field) then Raise IndexError
  else
    let place_field := mask_fill (negb <$> is_interior) place_field EPS in
    let place_field := (fun r => clip_min r EPS) <$> place_field in
    Ok (coef, place_field).

(** [place_bin_centers] is the array of the caller that
    [make_spline_predict_matrix] writes into; [edges] and [is_track_boundary]
    are not used by the function and are left out. *)
Definition fit_sorted_spikes_glm_jax_encoding_model
  (position : mat) (spikes : array2 Z) (place_bin_centers : loc)
  (place_bin_edges : mat) (is_interior : list bool)
  (emission_knot_spacing l2_penalty : float) (st : store)
  : option (store * res GLMEncodingModel) :=
  match make_spline_design_matrix position place_bin_edges emission_knot_spacing with
  | Raise e => Some (st, Raise e)
  | Ok (info, emission_design_matrix) =>
      '(st, predicted) ← make_spline_predict_matrix info place_bin_centers st ;
      Some (st,
            emission_predict_matrix <-! predicted ;
            let weights := replicate (n_rows spikes) one in
            fitted <-! map_res
              (fit_neuron emission_design_matrix emission_predict_matrix
                          weights is_interior l2_penalty)
              (columns 0%Z spikes) ;
            coefs <-! stack (fst <$> fitted) ;
            fields <-! stack (snd <$> fitted) ;
            Ok {| coefficients := coefs;
                  emission_design_info := info;
                  place_fields := fields;
                  is_track_interior := is_interior |})
  end.

(** One turn of the local loop. *)
Definition local_step (emission_predict_matrix : mat) (log_likelihood : vec)
  (neuron : list Z * vec) : res vec :=
  linear <-! np_matvec emission_predict_matrix neuron.2 ;
  let local_rate := (fun r => clip_min (f_exp r) EPS) <$> linear in
  logp <-! broadcast_with 0%Z NaN (fun s r => scipy_poisson_logpmf (of_Z s) r)
                          neuron.1 local_rate ;
  total <-! broadcast_with NaN NaN fadd log_likelihood logp ;
  if length total =? length log_likelihood then Ok total else Raise ValueError.

(** The array after [log_likelihood[:, mask] = c]. *)
Definition fill_columns (mask : list bool) (a : mat) (c : float) : mat :=
  (fun row => mask_fill mask row c) <$> a.

Definition predict_sorted_spikes_glm_jax_log_likelihood
  (position : loc) (spikes : array2 Z) (m : GLMEncodingModel) (is_local : bool)
  (st : store) : option (store * res mat) :=
  let n_time := n_rows spikes in
  if is_local then
    '(st, predicted) ←
      make_spline_predict_matrix (emission_design_info m) position st ;
    Some (st,
          emission_predict_matrix <-! predicted ;
          log_likelihood <-! for_loop
            (zip (columns 0%Z spikes) (rows (coefficients m)))
            (local_step emission_predict_matrix) (zeros n_time) ;
          Ok ((fun l => [l]) <$> log_likelihood))
  else
    let log_likelihood :=
      foldl (KDE.add_outer scipy_poisson_logpmf)
            (replicate n_time (zeros (n_cols (place_fields m))))
            (zip (columns 0%Z spikes) (rows (place_fields m))) in
    Some (st,
          if length (is_track_interior m) =? n_cols (place_fields m)
          then Ok (fill_columns (negb <$> is_track_interior m) log_likelihood NaN)
          else Raise IndexError).
End Defs.
End GLM.

(** ** The binary64 instance

    NumPy's default format, with executable stand-ins for the library
    functions: the properties below hold for every instance of [Numerics] and
    of [GLM.Externals]; this one runs the model on concrete arrays. *)

Module Binary64.

Definition b64_prec : Z := 53.
Definition b64_emax : Z := 1024.

Definition b64 (m : Z) (e : Z) : float := binary_normalize b64_prec b64_emax m e false.

(** The binary64 value of the literal [1e-15]. *)
Definition EPS64 : float := S754_finite false 5070602400912918 (-102).
Definition pi64 : float := S754_finite false 7074237752028440 (-51).
Definition ln2_64 : float := S754_finite false 6243314768165359 (-53).
Definition neg_infinity : float := S754_infinity true.

Definition add64 := SFadd b64_prec b64_emax.
Definition sub64 := SFsub b64_prec b64_emax.
Definition mul64 := SFmul b64_prec b64_emax.
Definition div64 := SFdiv b64_prec b64_emax.

(** [sum(y^i / i!)] for [i] up to [n], by Horner's rule. *)
Fixpoint exp_series (n : nat) (k : Z) (y : float) : float :=
  match n with
  | 0 => b64 1 0
  | S n' => add64 (b64 1 0) (mul64 (div64 y (b64 k 0)) (exp_series n' (k + 1) y))
  end.

Fixpoint square_times (n : nat) (v : float) : float :=
  match n with
  | 0 => v
  | S n' => square_times n' (mul64 v v)
  end.

(** [exp]: the argument is scaled below 1 in magnitude, the series is summed
    and the result squared back. *)
Definition exp64 (v : float) : float :=
  match v with
  | S754_nan => S754_nan
  | S754_infinity true => S754_zero false
  | S754_infinity false => v
  | S754_zero _ => b64 1 0
  | S754_finite _ _ _ =>
      let s := Z.max 0 (snd (SFfrexp b64_prec b64_emax v)) in
      square_times (Z.to_nat s)
        (exp_series 24 1 (SFldexp b64_prec b64_emax v (- s)))
  end.

(** [log], by Halley's iteration on [exp64] from the binary exponent. *)
Fixpoint log_iter (n : nat) (v y : float) : float :=
  match n with
  | 0 => y
  | S n' =>
      let e := exp64 y in
      log_iter n' v
        (add64 y (mul64 (b64 2 0) (div64 (sub64 v e) (add64 v e))))
  end.

Definition log64 (v : float) : float :=
  match v with
  | S754_nan => S754_nan
  | S754_zero _ => neg_infinity
  | S754_infinity false => v
  | S754_infinity true => S754_nan
  | S754_finite true _ _ => S754_nan
  | S754_finite false _ _ =>
      log_iter 8 v (mul64 (b64 (snd (SFfrexp b64_prec b64_emax v)) 0) ln2_64)
  end.

(** [xlogy(a, b)]: [a * log(b)], and 0 where [a] is 0. *)
Definition xlogy64 (a b : float) : float :=
  if SFeqb a (S754_zero false) then S754_zero false else mul64 a (log64 b).

(** The integer a float stands for, truncated. *)
Definition to_Z (v : float) : Z :=
  match v with
  | S754_finite s m e =>
      let a := if (0 <=? e)%Z then (Z.pos m * 2 ^ e)%Z else (Z.pos m / 2 ^ (- e))%Z in
      if s then (- a)%Z else a
  | _ => 0%Z
  end.

(** [gammaln(k + 1)] at a count [k]: the sum of [log i] for [i] from 2 to [k]. *)
Definition gammaln_succ (k : Z) : float :=
  foldl (fun acc i => add64 acc (log64 (b64 (Z.of_nat i) 0)))
        (S754_zero false) (seq 2 (Z.to_nat k - 1)).

(** The Poisson log-PMF at a count:
    [xlogy(k, mu) - gammaln(k + 1) - mu], and [-inf] below 0. *)
Definition poisson_logpmf64 (k mu : float) : float :=
  if SFltb k (S754_zero false) then neg_infinity
  else sub64 (sub64 (xlogy64 k mu) (gammaln_succ (to_Z k))) mu.

#[export] Instance numerics : Numerics := {|
  prec := b64_prec;
  emax := b64_emax;
  EPS := EPS64;
  EPS_pos := eq_refl;
  f_exp := exp64;
  f_log := log64;
  f_pi := pi64;
  xlogy := xlogy64;
  jax_poisson_logpmf := poisson_logpmf64;
  scipy_poisson_logpmf := poisson_logpmf64
|}.

(** Stand-ins for patsy and the optimiser: a design matrix with an intercept
    and the coordinates themselves as features, refusing rows with a NaN;
    one gradient step in place of BFGS, reported as not converged or as
    converged; central differences in place of automatic differentiation. *)
Definition linear_design (position : mat) : res mat :=
  if existsb (existsb is_nan) position then Raise PatsyError
  else Ok ((fun row => b64 1 0 :: row) <$> position).

Definition step_size : float := b64 1 (-4).

Definition gradient_step (converged : bool) (f : vec -> float) (x0 : vec)
  (jac : vec -> vec) : GLM.OptimizeResult :=
  {| GLM.x := zip_with (fun xi gi => sub64 xi (mul64 step_size gi)) x0 (jac x0);
     GLM.success := converged |}.

Definition difference_quotient (f : vec -> float) (v : vec) : vec :=
  let h := b64 1 (-20) in
  (fun i =>
     div64 (sub64 (f (alter (fun c => add64 c h) i v))
                  (f (alter (fun c => sub64 c h) i v)))
           (mul64 (b64 2 0) h))
    <$> seq 0 (length v).

Definition externals (converged : bool) : GLM.Externals := {|
  GLM.design_info := unit;
  GLM.make_spline_design_matrix := fun position _ _ =>
    res_bind (linear_design position) (fun m => Ok (tt, m));
  GLM.build_design_matrices := fun _ position => linear_design position;
  GLM.minimize := gradient_step converged;
  GLM.grad := difference_quotient
|}.

End Binary64.

(** ** Example arrays, in binary64 *)

Module Examples.
Import Binary64.

Definition f0 : float := b64 0 0.
Definition f1 : float := b64 1 0.
Definition f2 : float := b64 2 0.
Definition f5 : float := b64 5 0.

(** Two positions on a line, [[0.0], [1.0]], used as samples, as evaluation
    points and as bin centers. *)
Definition two_points : mat := [[f0]; [f1]].
Definition three_points : mat := [[f0]; [f1]; [f2]].

Definition from_Ok {A} (d : A) (r : res A) : A :=
  match r with
  | Ok a => a
  | Raise _ => d
  end.

Definition no_kde_model : KDE.KDEEncodingModel := {|
  KDE.marginal_models := [];
  KDE.occupancy_model := KDE.KDEModel_fit (KDE.StdScalar f5) None [];
  KDE.occupancy := [];
  KDE.mean_rates := Rank1 [];
  KDE.place_fields := Array2 0 0 [];
  KDE.no_spike_part_log_likelihood := [];
  KDE.is_track_interior := []
|}.

(** Two neurons over two time steps; the first one never spikes. *)
Definition spikes_one_silent : array2 Z := Array2 2 2 [[0; 1]; [0; 2]]%Z.

(** [fit_sorted_spikes_kde_encoding_model(two_points, spikes_one_silent,
    two_points, [True, True], position_std=5.0, block_size=100)] *)
Definition fit_one_silent : res KDE.KDEEncodingModel :=
  KDE.fit_sorted_spikes_kde_encoding_model two_points spikes_one_silent
    two_points [true; true] (KDE.StdScalar f5) (Some 100).
Definition model_one_silent : KDE.KDEEncodingModel :=
  from_Ok no_kde_model fit_one_silent.

(** Three bins, the last one off the track. *)
Definition fit_exterior : res KDE.KDEEncodingModel :=
  KDE.fit_sorted_spikes_kde_encoding_model two_points spikes_one_silent
    three_points [true; true; false] (KDE.StdScalar f5) (Some 100).
Definition model_exterior : KDE.KDEEncodingModel :=
  from_Ok no_kde_model fit_exterior.

(** New spike counts for a prediction: three time steps, two neurons. *)
Definition spikes_new : array2 Z := Array2 3 2 [[1; 0]; [0; 3]; [2; 1]]%Z.

(** The store of a caller of the GLM functions: the bin centers
    [[0.0], [1.0], [2.0]] at 1 and the positions [[0.0], [nan], [2.0]] at 2. *)
Definition centers_loc : GLM.loc := 1%positive.
Definition track_loc : GLM.loc := 2%positive.
Definition with_gap : mat := [[f0]; [NaN]; [f2]].
Definition caller_store : GLM.store :=
  <[track_loc := with_gap]> (<[centers_loc := three_points]> ∅).

Definition l2_small : float := b64 1 (-10).

Definition no_glm_model : @GLM.GLMEncodingModel (externals false) :=
  @GLM.Build_GLMEncodingModel (externals false)
    (Array2 0 0 []) tt (Array2 0 0 []) [].

(** [fit_sorted_spikes_glm_jax_encoding_model] on two positions, two neurons
    and three bins, the last one off the track. *)
Definition glm_fit_exterior
  : option (GLM.store * res (@GLM.GLMEncodingModel (externals false))) :=
  @GLM.fit_sorted_spikes_glm_jax_encoding_model numerics (externals false)
    two_points spikes_one_silent centers_loc [] [true; true; false]
    f5 l2_small caller_store.
Definition glm_model_exterior : @GLM.GLMEncodingModel (externals false) :=
  match glm_fit_exterior with
  | Some (_, Ok m) => m
  | _ => no_glm_model
  end.

Definition glm_store_after : GLM.store :=
  match glm_fit_exterior with
  | Some (st, _) => st
  | None => ∅
  end.
Definition glm_fit_succeeds : bool :=
  match glm_fit_exterior with
  | Some (_, Ok _) => true
  | _ => false
  end.

(** The design matrix of the stand-in for the positions [with_gap] with the
    gap filled by 0.0. *)
Definition built_gap : mat := [[f1; f0]; [f1; f0]; [f1; f2]].

(** A regression problem: an intercept and one feature, two samples. *)
Definition design2 : mat := [[f1; f0]; [f1; f1]].
Definition counts2 : vec := [f1; f2].
Definition weights2 : vec := [f1; f1].
End Examples.

(** ** Specification-level definitions *)

Section SpecDefs.
Context `{Numerics}.

(** The density at one evaluation point: the mean over the samples of the
    product over the dimensions of the Gaussian kernel. *)
Definition point_density (samples : mat) (std : vec) (e : vec) : float :=
  fmean (foldl (fun col (dim : nat * float) =>
                  zip_with (fun s d =>
                              fmul d (KDE.gaussian_pdf (nth dim.1 e NaN)
                                                       (nth dim.1 s NaN) dim.2))
                           samples col)
               ((fun _ => one) <$> samples) (KDE.enumerate std)).

(** The number of selected positions of a mask, and the place of bin [b]
    among the selected ones: its index in [place_bin_centers[mask]]. *)
Fixpoint count_true (mask : list bool) : nat :=
  match mask with
  | [] => 0
  | b :: mask' => (if b then 1 else 0) + count_true mask'
  end.

Definition interior_index (mask : list bool) (b : nat) : nat :=
  count_true (take b mask).

(** The position samples at the time steps where neuron [n] has a nonzero
    spike count: each time step is paired with its row of counts, the time
    steps with a nonzero count are kept, once each. *)
Definition spike_positions (position : mat) (spikes : array2 Z) (n : nat) : mat :=
  fst <$> filter (fun sample : vec * list Z => nth n sample.2 0%Z <> 0%Z)
                 (zip position (rows spikes)).

(** Neuron [n] has no spike at any time step. *)
Definition silent (spikes : array2 Z) (n : nat) : Prop :=
  Forall (fun counts => nth n counts 0%Z = 0%Z) (rows spikes).

(** The log-likelihood accumulated over the neurons at time step [t] and bin
    [b]: the terms [term(spikes[t, n], place_fields[n, b])] added up from 0
    in the order of the neurons. *)
Definition accumulated (term : float -> float -> float)
  (neurons : list (list Z * vec)) (t b : nat) : float :=
  foldl (fun acc (neuron : list Z * vec) =>
           fadd acc (term (of_Z (nth t neuron.1 0%Z)) (nth b neuron.2 NaN)))
        pos_zero neurons.

(** The unblocked estimate at every evaluation point, before [squeeze]. *)
Definition kde_points (eval_points samples : mat) (std : vec) : vec :=
  point_density samples std <$> eval_points.

(** Some chunk of [block_kde] holds exactly one evaluation point. *)
Definition singleton_chunk (n block_size : nat) : bool :=
  (n mod block_size =? 1) || ((block_size =? 1) && (0 <? n)).

(** A block size under which [block_kde] runs on [n] evaluation points: at
    least 1 and leaving no chunk of a single point.  [None] is the default of
    [KDEModel], all points at once. *)
Definition chunks_ok (bs : option nat) (n : nat) : Prop :=
  1 <= default n bs /\ singleton_chunk n (default n bs) = false.
End SpecDefs.

Section GLMSpecDefs.
Context `{Numerics}.

(** The quantities of the specification, written with the operations of the
    floating-point library alone. *)

(** The sum of the entries in their order, from [acc]. *)
Fixpoint sum_from (acc : float) (v : vec) : float :=
  match v with
  | [] => acc
  | x :: v' => sum_from (SFadd prec emax acc x) v'
  end.

(** The sum and the mean of a vector. *)
Definition total (v : vec) : float := sum_from (S754_zero false) v.
Definition mean_of (v : vec) : float :=
  SFdiv prec emax (total v)
        (binary_normalize prec emax (Z.of_nat (length v)) 0 false).

(** [design_row . coefficients], added up from [acc]. *)
Fixpoint inner_from (acc : float) (design_row coefficients : vec) : float :=
  match design_row, coefficients with
  | x :: design_row', c :: coefficients' =>
      inner_from (SFadd prec emax acc (SFmul prec emax x c))
                 design_row' coefficients'
  | _, _ => acc
  end.

(** The rate of one sample: [exp(design_row . coefficients)], and epsilon
    where that is below epsilon. *)
Definition sample_rate (design_row coefficients : vec) : float :=
  let rate := f_exp (inner_from (S754_zero false) design_row coefficients) in
  if SFltb rate EPS then EPS else rate.

(** The objective in the words of the specification: the negated mean over
    the samples of weight times the Poisson log-PMF of the spike count at the
    rate of the sample, plus the L2 penalty on the coefficients of index 1
    and above. *)
Definition penalised_objective (design_matrix : mat) (spikes weights : vec)
  (l2_penalty : float) (coefficients : vec) : float :=
  SFadd prec emax
    (SFmul prec emax (binary_normalize prec emax (-1) 0 false)
       (mean_of ((fun sample : vec * float * float =>
                    let '(design_row, count, weight) := sample in
                    SFmul prec emax weight
                          (jax_poisson_logpmf count
                             (sample_rate design_row coefficients)))
                   <$> zip (zip design_matrix spikes) weights)))
    (SFmul prec emax l2_penalty
       (total ((fun j => let c := nth j coefficients S754_nan in
                         SFmul prec emax c c)
                 <$> seq 1 (length coefficients - 1)))).

(** The initial point: the log of the weighted mean spike count, then one
    zero for every other column of the design matrix. *)
Definition initial_point (design_matrix : mat) (spikes weights : vec) : vec :=
  f_log (SFdiv prec emax (total (zip_with (SFmul prec emax) spikes weights))
               (total weights))
    :: replicate (length (default [] (head design_matrix)) - 1) (S754_zero false).


End GLMSpecDefs.

Section MoreSpecDefs.
Context `{Numerics}.

(** The bandwidths [KDEModel.predict] hands to [block_kde] for the
    evaluation points [e]. *)
Definition bandwidths (s : KDE.bandwidth) (e : mat) : vec :=
  match s with
  | KDE.StdScalar x => replicate (KDE.n_dims e) x
  | KDE.StdArray v => v
  end.

(** The position array after [position[is_nan] = 0.0]. *)
Definition zero_filled (a : mat) : mat :=
  GLM.fill_rows (GLM.any_isnan a) a pos_zero.
End MoreSpecDefs.

(** ** More example arrays *)

Module MoreExamples.
Import Binary64 Examples.

(** One neuron over two time steps. *)
Definition spikes_single : array2 Z := Array2 2 1 [[1]; [0]]%Z.

(** Two neurons and no time step. *)
Definition spikes_no_time : array2 Z := Array2 0 2 [].

(** A model fit on no sample, and one fit on two positions. *)
Definition model_no_sample : KDE.KDEModel :=
  KDE.KDEModel_fit (KDE.StdScalar f5) (Some 100) [].
Definition model_two_points : KDE.KDEModel :=
  KDE.KDEModel_fit (KDE.StdScalar f5) (Some 100) two_points.

Definition density_two : vec :=
  from_Ok [] (KDE.KDEModel_predict model_two_points two_points).
Definition density_three : vec :=
  from_Ok [] (KDE.KDEModel_predict model_two_points three_points).
Definition density_five : vec :=
  from_Ok [] (KDE.KDEModel_predict model_two_points (two_points ++ three_points)).

(** The local likelihood of [spikes_new] at three positions. *)
Definition local_three : mat :=
  from_Ok [] (KDE.predict_sorted_spikes_kde_log_likelihood three_points spikes_new
                model_exterior true).

(** The first predict transform of the positions [with_gap]. *)
Definition first_transform : option (GLM.store * res mat) :=
  @GLM.make_spline_predict_matrix (externals false) tt track_loc caller_store.
Definition store_after_transform : GLM.store :=
  match first_transform with
  | Some (st, _) => st
  | None => ∅
  end.
Definition first_matrix : res mat :=
  match first_transform with
  | Some (_, r) => r
  | None => Raise ValueError
  end.

(** A local GLM prediction at the positions [with_gap]. *)
Definition glm_local : option (GLM.store * res mat) :=
  @GLM.predict_sorted_spikes_glm_jax_log_likelihood numerics (externals false)
    track_loc spikes_new glm_model_exterior true caller_store.
Definition glm_local_store : GLM.store :=
  match glm_local with
  | Some (st, _) => st
  | None => ∅
  end.
Definition glm_local_result : res mat :=
  match glm_local with
  | Some (_, r) => r
  | None => Raise ValueError
  end.
End MoreExamples.

(** Closed goals over concrete arrays. *)
Ltac evaluate := vm_compute; reflexivity.
Ltac well_formed :=
  split; [vm_compute; reflexivity | vm_compute; repeat constructor].

(** * Properties *)

Section Properties.
Context `{Numerics}.

(** ** Exceptions and loops *)

Lemma map_res_Ok {A B} (f : A -> res B) xs ys :
  map_res f xs = Ok ys -> Forall2 (fun x y => f x = Ok y) xs ys.
Proof.
  revert ys. induction xs as [|x xs IH]; intros ys; simpl.
  - intros [= <-]. constructor.
  - destruct (f x) as [y|] eqn:Hy; simpl; [|done].
    destruct (map_res f xs) as [ys'|] eqn:Hys; simpl; [|done].
    intros [= <-]. constructor; auto.
Qed.

(** ** The kernel density estimate *)

Lemma kde_dim_fmap (eval_points samples : mat) (h : vec -> vec) dim :
  KDE.kde_dim eval_points samples (h <$> eval_points) dim =
  (fun e => zip_with (fun s d =>
                        fmul d (KDE.gaussian_pdf (nth dim.1 e NaN)
                                                 (nth dim.1 s NaN) dim.2))
                     samples (h e)) <$> eval_points.
Proof.
  unfold KDE.kde_dim. induction eval_points as [|e es IH]; simpl; [done|].
  f_equal. apply IH.
Qed.

Lemma kde_loop_fmap (eval_points samples : mat) dims (h : vec -> vec) :
  foldl (KDE.kde_dim eval_points samples) (h <$> eval_points) dims =
  (fun e => foldl (fun col (dim : nat * float) =>
                     zip_with (fun s d =>
                                 fmul d (KDE.gaussian_pdf (nth dim.1 e NaN)
                                                          (nth dim.1 s NaN) dim.2))
                              samples col)
                  (h e) dims) <$> eval_points.
Proof.
  revert h. induction dims as [|dim dims IH]; intros h; simpl.
  - done.
  - rewrite kde_dim_fmap. apply IH.
Qed.

(** [kde] computes every evaluation point on its own. *)
Lemma kde_pointwise eval_points samples std :
  KDE.kde eval_points samples std =
  squeeze (Rank1 (kde_points eval_points samples std)).
Proof.
  unfold KDE.kde, KDE.distance_ones, kde_points, point_density.
  rewrite kde_loop_fmap. by rewrite <- list_fmap_compose.
Qed.

Lemma kde_points_length eval_points samples std :
  length (kde_points eval_points samples std) = length eval_points.
Proof. unfold kde_points. by rewrite length_fmap. Qed.

Lemma kde_points_slice eval_points samples std start size :
  kde_points (py_slice eval_points start size) samples std =
  py_slice (kde_points eval_points samples std) start size.
Proof. unfold kde_points, py_slice. by rewrite fmap_take, fmap_drop. Qed.

Lemma squeeze_long l : length l <> 1 -> squeeze (Rank1 l) = Rank1 l.
Proof. destruct l as [|a [|b l]]; simpl; intros; done. Qed.

Lemma squeeze_one l : length l = 1 -> exists a, squeeze (Rank1 l) = Rank0 a.
Proof. destruct l as [|a [|b l]]; simpl; intros; eauto; done. Qed.

(** Writing a chunk of at least two densities at its place. *)
Lemma update_chunk (v : vec) s bs :
  s < length v ->
  bs `min` (length v - s) <> 1 ->
  dynamic_update_slice (take s v ++ zeros (length v - s))
                       (squeeze (squeeze (Rank1 (py_slice v s bs)))) s =
  Ok (take (s + bs) v ++ zeros (length v - (s + bs))).
Proof.
  intros Hs Hc.
  assert (Hlen : length (py_slice v s bs) = bs `min` (length v - s)).
  { unfold py_slice. by rewrite length_take, length_drop. }
  rewrite !squeeze_long by (simpl; congruence).
  unfold dynamic_update_slice, zeros.
  rewrite length_app, length_take, length_replicate, Hlen.
  destruct (Nat.ltb_spec (s `min` length v + (length v - s))
                         (bs `min` (length v - s))) as [Hlt|_]; [lia|].
  replace (s `min` (s `min` length v + (length v - s) - bs `min` (length v - s)))
    with s by lia.
  rewrite take_app_le by (rewrite length_take; lia).
  rewrite take_take, Nat.min_id.
  rewrite drop_app_ge by (rewrite length_take; lia).
  rewrite length_take, drop_replicate.
  rewrite <- take_take_drop. rewrite <- app_assoc. unfold py_slice.
  do 4 f_equal. lia.
Qed.

(** The loop of [block_kde] from the chunk that starts at [k * block_size]:
    the densities written so far are those of [kde]. *)
Lemma block_loop eval_points samples std bs fuel k :
  1 <= bs ->
  length eval_points <= fuel + k * bs ->
  let v := kde_points eval_points samples std in
  let n := length eval_points in
  for_loop (range_from fuel (k * bs) n bs)
    (fun density start_ind =>
       dynamic_update_slice density
         (squeeze (KDE.kde (py_slice eval_points start_ind bs) samples std))
         start_ind)
    (take (k * bs) v ++ zeros (n - k * bs)) =
  if (k * bs <? n) && ((n mod bs =? 1) || (bs =? 1))
  then Raise TypeError else Ok v.
Proof.
  intros Hbs Hfuel v n. revert k Hfuel.
  assert (Hv : length v = n) by apply kde_points_length.
  induction fuel as [|fuel IH]; intros k Hfuel.
  - simpl. destruct (Nat.ltb_spec (k * bs) n) as [Hlt|Hge]; [lia|]. simpl.
    rewrite take_ge by lia. replace (n - k * bs) with 0 by lia.
    simpl. by rewrite app_nil_r.
  - simpl. destruct (Nat.ltb_spec (k * bs) n) as [Hlt|Hge]; simpl.
    2:{ rewrite take_ge by lia. replace (n - k * bs) with 0 by lia.
        simpl. by rewrite app_nil_r. }
    rewrite kde_pointwise, kde_points_slice. fold v.
    assert (Hmod : n mod bs = (n - k * bs) mod bs).
    { replace n with ((n - k * bs) + k * bs) at 1 by lia.
      by rewrite Nat.Div0.mod_add. }
    destruct (decide (bs `min` (n - k * bs) = 1)) as [Hone|Hmany].
    + (* a chunk of one evaluation point: a 0-d update *)
      assert (Hlen : length (py_slice v (k * bs) bs) = 1).
      { unfold py_slice. rewrite length_take, length_drop. lia. }
      destruct (squeeze_one _ Hlen) as [a ->]. simpl.
      destruct (decide (bs = 1)) as [->|Hbs1].
      * by rewrite orb_true_r.
      * assert (n - k * bs = 1) as Hrem by lia.
        rewrite Hmod, Hrem, Nat.mod_small by lia. done.
    + rewrite <- Hv at 1 2. rewrite update_chunk by lia. simpl.
      replace (k * bs + bs) with (S k * bs) by lia.
      rewrite Hv. rewrite IH by lia.
      assert (bs <> 1) by lia.
      destruct (Nat.eqb_spec bs 1) as [?|_]; [done|]. rewrite !orb_false_r.
      destruct (Nat.eqb_spec (n mod bs) 1) as [Hm|Hm]; rewrite ?andb_false_r; [|done].
      rewrite andb_true_r.
      destruct (Nat.ltb_spec (S k * bs) n) as [?|Hge]; [done|].
      exfalso. rewrite Hmod in Hm.
      destruct (decide (n - k * bs < bs)) as [Hsmall|Hbig].
      * rewrite Nat.mod_small in Hm by lia. lia.
      * assert (n - k * bs = bs) as Heq by lia.
        rewrite Heq, Nat.Div0.mod_same in Hm. done.
Qed.

(** [block_kde] raises [TypeError] when some chunk holds one evaluation
    point, and gives the densities of [kde] otherwise. *)
Lemma block_kde_spec eval_points samples std bs :
  1 <= bs ->
  KDE.block_kde eval_points samples std bs =
  if singleton_chunk (length eval_points) bs then Raise TypeError
  else Ok (kde_points eval_points samples std).
Proof.
  intros Hbs. unfold KDE.block_kde, py_range.
  destruct (Nat.eqb_spec bs 0) as [?|_]; [lia|]. simpl.
  pose proof (block_loop eval_points samples std bs
                (length eval_points) 0 Hbs) as Hloop.
  simpl in Hloop. rewrite Nat.sub_0_r in Hloop. rewrite Hloop by lia.
  unfold singleton_chunk.
  destruct (Nat.ltb_spec 0 (length eval_points)) as [Hpos|Hzero]; simpl.
  - by rewrite andb_true_r.
  - replace (length eval_points) with 0 by lia.
    rewrite Nat.Div0.mod_0_l. by rewrite andb_false_r.
Qed.

(** ** Floating-point comparisons *)

Lemma SFcompare_antisym (a b : float) :
  SFcompare b a = CompOpp <$> SFcompare a b.
Proof.
  destruct a as [[]|[]| |[] ma ea], b as [[]|[]| |[] mb eb]; simpl; try done;
    f_equal; rewrite (Z.compare_antisym ea eb);
    destruct (ea ?= eb)%Z; simpl; try done;
    change (Pos.compare_cont Eq mb ma) with (mb ?= ma)%positive;
    change (Pos.compare_cont Eq ma mb) with (ma ?= mb)%positive;
    rewrite (Pos.compare_antisym ma mb); by destruct (ma ?= mb)%positive.
Qed.

Lemma SFcompare_refl (a : float) : is_nan a = false -> SFcompare a a = Some Eq.
Proof.
  destruct a as [[]|[]| |[] ma ea]; simpl; try done; intros _;
    rewrite Z.compare_refl;
    change (Pos.compare_cont Eq ma ma) with (ma ?= ma)%positive;
    by rewrite Pos.compare_refl.
Qed.

Lemma SFltb_nan_r (a b : float) : SFltb a b = true -> is_nan b = false.
Proof. by destruct a, b. Qed.

Lemma SFleb_ge (a b : float) :
  is_nan a = false -> is_nan b = false -> SFltb a b = false -> SFleb b a = true.
Proof.
  intros Ha Hb. unfold SFltb, SFleb. rewrite (SFcompare_antisym a b).
  destruct (SFcompare a b) as [[]|] eqn:Hc; simpl; try done.
  by destruct a, b.
Qed.

Lemma EPS_not_nan : is_nan EPS = false.
Proof. exact (SFltb_nan_r _ _ EPS_pos). Qed.

(** Zero lies below the floor. *)
Lemma EPS_above_zero s : SFleb EPS (S754_zero s) = false.
Proof.
  pose proof EPS_pos as Hpos. unfold SFleb, SFltb, pos_zero in *.
  by destruct EPS as [[]|[]| |[] m e], s.
Qed.

Lemma maximum_nan (a b : float) : is_nan a = true -> maximum a b = a.
Proof. unfold maximum. by intros ->. Qed.

(** A clipped value is NaN or at least the floor. *)
Lemma clip_min_floor (a : float) :
  is_nan a = false -> SFleb EPS (clip_min a EPS) = true.
Proof.
  intros Ha. unfold clip_min, maximum. rewrite Ha, EPS_not_nan.
  destruct (SFltb a EPS) eqn:Hlt.
  - unfold SFleb. by rewrite SFcompare_refl by apply EPS_not_nan.
  - apply SFleb_ge; auto using EPS_not_nan.
Qed.

Lemma clip_min_cases (a : float) :
  clip_min a EPS = NaN \/ SFleb EPS (clip_min a EPS) = true.
Proof.
  destruct (is_nan a) eqn:Ha.
  - left. unfold clip_min. rewrite maximum_nan by done. by destruct a.
  - right. by apply clip_min_floor.
Qed.

Lemma clip_min_EPS : clip_min EPS EPS = EPS.
Proof.
  unfold clip_min, maximum. rewrite EPS_not_nan.
  unfold SFltb. by rewrite SFcompare_refl by apply EPS_not_nan.
Qed.

(** ** Boolean masks *)

Lemma scatter_length {A} (mask : list bool) (a values : list A) :
  length (scatter mask a values) = length a.
Proof.
  revert a values. induction mask as [|[] mask IH]; intros [|x a] values;
    simpl; try done.
  - destruct values; simpl; by rewrite IH.
  - by rewrite IH.
Qed.

Lemma scatter_lookup_false {A} (mask : list bool) (a values : list A) b :
  mask !! b = Some false -> scatter mask a values !! b = a !! b.
Proof.
  revert a values b. induction mask as [|c mask IH]; intros a values b; [done|].
  destruct a as [|x a].
  { by destruct c. }
  destruct b as [|b]; simpl.
  - intros [= ->]. done.
  - intros Hb. destruct c; [destruct values|]; simpl; by apply IH.
Qed.

Lemma scatter_lookup_true {A} (mask : list bool) (a values : list A) b :
  mask !! b = Some true ->
  b < length a ->
  count_true mask <= length values ->
  scatter mask a values !! b = values !! interior_index mask b.
Proof.
  unfold interior_index.
  revert a values b. induction mask as [|c mask IH]; intros a values b; [done|].
  destruct a as [|x a]; [simpl; lia|].
  destruct b as [|b]; simpl.
  - intros [= ->] _ Hv. destruct values; simpl in *; [lia|done].
  - intros Hb Hlen Hv. destruct c; simpl in *.
    + destruct values as [|v values]; simpl in *; [lia|].
      apply IH; [done|lia|lia].
    + apply IH; [done|lia|done].
Qed.

Lemma select_length {A} (mask : list bool) (a : list A) :
  length mask = length a -> length (select mask a) = count_true mask.
Proof.
  revert a. induction mask as [|[] mask IH]; intros [|x a]; simpl; try done;
    intros [= Hlen]; by rewrite IH.
Qed.

Lemma interior_index_lt (mask : list bool) b :
  mask !! b = Some true -> interior_index mask b < count_true mask.
Proof.
  unfold interior_index.
  revert b. induction mask as [|c mask IH]; intros b; [done|].
  destruct b as [|b]; simpl.
  - intros [= ->]. lia.
  - intros Hb. specialize (IH _ Hb). destruct c; lia.
Qed.

Lemma mask_select_Ok {A} (mask : list bool) (a l : list A) :
  mask_select mask a = Ok l -> length mask = length a /\ l = select mask a.
Proof.
  unfold mask_select. destruct (Nat.eqb_spec (length mask) (length a)); [|done].
  by intros [= <-].
Qed.

(** ** The KDE fit *)

Lemma block_kde_Ok eval_points samples std bs l :
  KDE.block_kde eval_points samples std bs = Ok l ->
  l = kde_points eval_points samples std.
Proof.
  destruct bs as [|bs]; [done|].
  rewrite block_kde_spec by lia.
  destruct (singleton_chunk _ _); congruence.
Qed.

Lemma predict_length (m : KDE.KDEModel) eval_points l :
  KDE.KDEModel_predict m eval_points = Ok l -> length l = length eval_points.
Proof.
  unfold KDE.KDEModel_predict. intros ->%block_kde_Ok.
  apply kde_points_length.
Qed.

(** Without samples the mean over the samples is 0/0 at every point. *)
Lemma kde_points_no_samples eval_points std :
  kde_points eval_points [] std = replicate (length eval_points) NaN.
Proof.
  unfold kde_points.
  assert (Hpoint : forall e, point_density [] std e = NaN).
  { intros e. unfold point_density.
    generalize (KDE.enumerate std). intros dims.
    induction dims as [|dim dims IH]; [done|]. exact IH. }
  induction eval_points as [|e es IH]; simpl; [done|].
  f_equal; [apply Hpoint | apply IH].
Qed.

Lemma predict_no_samples (m : KDE.KDEModel) eval_points l :
  KDE.samples_ m = [] ->
  KDE.KDEModel_predict m eval_points = Ok l ->
  l = replicate (length eval_points) NaN.
Proof.
  unfold KDE.KDEModel_predict. intros -> ->%block_kde_Ok.
  apply kde_points_no_samples.
Qed.

Lemma stack_Ok {A} (arrays : list (list A)) a :
  stack arrays = Ok a ->
  rows a = arrays /\ n_rows a = length arrays /\ arrays <> [] /\ wf_array2 a.
Proof.
  unfold stack. destruct arrays as [|r arrays]; [done|].
  destruct (forallb _ _) eqn:Hall; [|done]. intros [= <-].
  repeat split; simpl; try done.
  apply Forall_forall. intros b Hb%list_elem_of_In.
  rewrite forallb_forall in Hall. by apply Nat.eqb_eq, Hall.
Qed.

Lemma columns_lookup {A} (d : A) (a : array2 A) n col :
  columns d a !! n = Some col ->
  n < n_cols a /\ col = (fun r => nth n r d) <$> rows a.
Proof.
  unfold columns. rewrite list_lookup_fmap.
  destruct (seq 0 (n_cols a) !! n) as [j|] eqn:Hj; [|done].
  apply lookup_seq in Hj as [-> Hn]. simpl. by intros [= <-].
Qed.

Lemma columns_length {A} (d : A) (a : array2 A) :
  length (columns d a) = n_cols a.
Proof. unfold columns. by rewrite length_fmap, length_seq. Qed.

Lemma kde_rate_length rate occ md :
  length (KDE.kde_rate rate occ md) = length occ `min` length md.
Proof. unfold KDE.kde_rate. by rewrite length_fmap, length_zip_with. Qed.

Lemma kde_rate_lookup rate occ md k v :
  KDE.kde_rate rate occ md !! k = Some v ->
  exists o d, occ !! k = Some o /\ md !! k = Some d /\
    v = clip_min (fmul rate (if is_pos o then fdiv d o else EPS)) EPS.
Proof.
  unfold KDE.kde_rate. rewrite list_lookup_fmap.
  destruct (zip_with _ occ md !! k) as [r|] eqn:Hr; [|done].
  apply lookup_zip_with_Some in Hr as (o & d & -> & Ho & Hd).
  simpl. intros [= <-]. eauto.
Qed.

(** What the fit keeps for neuron [n]: its marginal model on the positions
    selected by its spike indicator, and the place field scattered over the
    interior bins of an array of zeros. *)
Lemma kde_fit_neuron position spikes centers interior std bs m n pf :
  KDE.fit_sorted_spikes_kde_encoding_model position spikes centers interior std bs
    = Ok m ->
  rows (KDE.place_fields m) !! n = Some pf ->
  exists col rate model md,
    columns 0%Z spikes !! n = Some col /\
    KDE.marginal_models m !! n = Some model /\
    length col = length position /\
    KDE.samples_ model = select (KDE.to_bool <$> col) position /\
    KDE.KDEModel_predict model (select interior centers) = Ok md /\
    length md = count_true interior /\
    length (KDE.occupancy m) = count_true interior /\
    length interior = length centers /\
    pf = scatter interior (zeros (length interior))
                 (KDE.kde_rate rate (KDE.occupancy m) md).
Proof.
  unfold KDE.fit_sorted_spikes_kde_encoding_model.
  destruct (mask_select interior centers) as [ic|] eqn:Hic; simpl; [|done].
  apply mask_select_Ok in Hic as [Hlen ->].
  destruct (KDE.KDEModel_predict _ _) as [occ|] eqn:Hocc; simpl; [|done].
  destruct (jiter _) as [rates|] eqn:Hrates; simpl; [|done].
  destruct (map_res _ _) as [fitted|] eqn:Hfit; simpl; [|done].
  destruct (stack _) as [fields|] eqn:Hstack; simpl; [|done].
  intros [= <-]. simpl.
  apply stack_Ok in Hstack as (-> & _ & _ & _).
  rewrite list_lookup_fmap.
  destruct (fitted !! n) as [[model pf']|] eqn:Hn; [|done]. simpl.
  intros [= ->].
  apply map_res_Ok in Hfit.
  destruct (Forall2_lookup_r _ _ _ _ _ Hfit Hn) as ([bcol rate] & Hzip & Hbody).
  apply lookup_zip_with_Some in Hzip as (bcol' & rate' & [= <- <-] & Hcol & Hrate).
  rewrite list_lookup_fmap in Hcol.
  destruct (columns 0%Z spikes !! n) as [col|] eqn:Hcoln; [|done].
  simpl in Hcol. injection Hcol as <-.
  unfold KDE.fit_neuron in Hbody.
  destruct (mask_select (KDE.to_bool <$> col) position) as [sp|] eqn:Hsp;
    simpl in Hbody; [|done].
  apply mask_select_Ok in Hsp as [Hlencol ->].
  unfold mask_select in Hbody.
  replace (length interior =? length centers) with true in Hbody
    by (symmetry; by apply Nat.eqb_eq).
  simpl in Hbody.
  destruct (KDE.KDEModel_predict
              (KDE.KDEModel_fit std bs (select (KDE.to_bool <$> col) position))
              (select interior centers)) as [md|] eqn:Hmd;
    simpl in Hbody; [|done].
  injection Hbody as <- <-.
  exists col, rate, (KDE.KDEModel_fit std bs (select (KDE.to_bool <$> col) position)), md.
  rewrite list_lookup_fmap, Hn. simpl.
  rewrite length_fmap in Hlencol.
  apply predict_length in Hmd as Hmdlen. apply predict_length in Hocc.
  rewrite select_length in Hmdlen, Hocc by done.
  repeat split; done.
Qed.

Lemma jiter_squeeze l rates :
  jiter (squeeze (Rank1 l)) = Ok rates -> rates = l /\ length l <> 1.
Proof. destruct l as [|a [|b l]]; simpl; intros [= <-]; done. Qed.

Lemma kde_fit_neurons position spikes centers interior std bs m :
  KDE.fit_sorted_spikes_kde_encoding_model position spikes centers interior std bs
    = Ok m ->
  length (rows (KDE.place_fields m)) = n_cols spikes /\
  length (KDE.marginal_models m) = n_cols spikes /\
  2 <= n_cols spikes /\
  wf_array2 (KDE.place_fields m) /\
  KDE.is_track_interior m = interior /\
  KDE.no_spike_part_log_likelihood m = KDE.sum_axis0 (KDE.place_fields m).
Proof.
  unfold KDE.fit_sorted_spikes_kde_encoding_model.
  destruct (mask_select interior centers) as [ic|] eqn:Hic; simpl; [|done].
  destruct (KDE.KDEModel_predict _ _) as [occ|] eqn:Hocc; simpl; [|done].
  destruct (jiter _) as [rates|] eqn:Hrates; simpl; [|done].
  destruct (map_res _ _) as [fitted|] eqn:Hfit; simpl; [|done].
  destruct (stack _) as [fields|] eqn:Hstack; simpl; [|done].
  intros [= <-]. simpl.
  apply stack_Ok in Hstack as (Hrows & _ & Hne & Hwf).
  apply jiter_squeeze in Hrates as [-> Hone].
  apply map_res_Ok, Forall2_length in Hfit.
  rewrite length_zip_with, length_fmap, columns_length in Hfit.
  unfold KDE.mean_axis0 in Hfit, Hone.
  rewrite length_fmap, columns_length in Hfit, Hone.
  rewrite Hrows, !length_fmap.
  assert (length fitted <> 0).
  { intros Hz. apply Hne. destruct fitted; [done|simpl in Hz; lia]. }
  do 3 (split; [lia|]). done.
Qed.

Lemma select_spike_positions (position : mat) (counts : list (list Z)) n :
  length counts = length position ->
  select (KDE.to_bool <$> ((fun r => nth n r 0%Z) <$> counts)) position =
  fst <$> filter (fun sample : vec * list Z => nth n sample.2 0%Z <> 0%Z)
                 (zip position counts).
Proof.
  revert counts. induction position as [|p position IH]; intros [|c counts];
    simpl; try done.
  intros [= Hlen]. rewrite filter_cons. simpl. unfold KDE.to_bool at 1.
  destruct (Z.eqb_spec (nth n c 0%Z) 0) as [Hz|Hnz]; simpl.
  - rewrite decide_False by (intros Hne; by apply Hne). by apply IH.
  - rewrite decide_True by done. simpl. f_equal. by apply IH.
Qed.

Lemma select_none {A} (mask : list bool) (a : list A) :
  Forall (fun b => b = false) mask -> select mask a = [].
Proof.
  intros Hall. revert a. induction Hall as [|b mask -> _ IH]; intros [|x a];
    simpl; auto.
Qed.

(** C9. For every neuron of a fit, the marginal KDE model is fit on exactly
    the position samples of the time steps where the spike count of the
    neuron is not zero, each of them once whatever the count: the selection
    is by the boolean indicator of the count. *)
Theorem kde_marginal_model_samples
  position spikes centers interior std bs m n :
  KDE.fit_sorted_spikes_kde_encoding_model position spikes centers interior std bs
    = Ok m ->
  n < n_cols spikes ->
  exists model,
    KDE.marginal_models m !! n = Some model /\
    KDE.samples_ model = spike_positions position spikes n /\
    length (KDE.samples_ model) =
      length (filter (fun counts => nth n counts 0%Z <> 0%Z) (rows spikes)).
Proof.
  intros Hfit Hn.
  destruct (kde_fit_neurons _ _ _ _ _ _ _ Hfit) as (Hrows & _).
  destruct (lookup_lt_is_Some_2 (rows (KDE.place_fields m)) n) as [pf Hpf]; [lia|].
  destruct (kde_fit_neuron _ _ _ _ _ _ _ _ _ Hfit Hpf)
    as (col & rate & model & md & Hcol & Hmodel & Hlen & Hsamples & _).
  apply columns_lookup in Hcol as [_ ->]. rewrite length_fmap in Hlen.
  exists model. split; [done|].
  rewrite Hsamples, select_spike_positions by done.
  split; [done|]. rewrite length_fmap.
  clear -Hlen. revert position Hlen.
  induction (rows spikes) as [|c counts IH]; intros [|p position]; simpl; try done.
  intros [= Hlen]. rewrite !filter_cons. simpl.
  destruct (decide (nth n c 0%Z <> 0%Z)); simpl; rewrite ?IH; done.
Qed.

(** The place field of a neuron without a spike, in a fitted model. *)
Lemma silent_neuron_nan
  position spikes centers interior std bs m n pf b occ :
  KDE.fit_sorted_spikes_kde_encoding_model position spikes centers interior std bs
    = Ok m ->
  silent spikes n ->
  rows (KDE.place_fields m) !! n = Some pf ->
  interior !! b = Some true ->
  KDE.occupancy m !! interior_index interior b = Some occ ->
  is_pos occ = true ->
  pf !! b = Some NaN.
Proof.
  intros Hfit Hsilent Hpf Hb Hocc Hpos.
  destruct (kde_fit_neuron _ _ _ _ _ _ _ _ _ Hfit Hpf)
    as (col & rate & model & md & Hcol & _ & _ & Hsamples & Hmd & Hmdlen
        & Hocclen & Hlen & ->).
  apply columns_lookup in Hcol as [_ ->].
  rewrite select_none in Hsamples.
  2:{ rewrite <- list_fmap_compose. apply Forall_fmap.
      eapply Forall_impl; [exact Hsilent|]. simpl. intros c ->. done. }
  apply (predict_no_samples _ _ _ Hsamples) in Hmd. subst md.
  pose proof (interior_index_lt _ _ Hb) as Hk.
  rewrite scatter_lookup_true; try done.
  - unfold KDE.kde_rate. rewrite list_lookup_fmap, lookup_zip_with, Hocc. simpl.
    rewrite lookup_replicate_2 by (rewrite length_replicate in Hmdlen; lia).
    simpl. rewrite Hpos. f_equal.
    unfold clip_min. replace (fmul rate (fdiv NaN occ)) with NaN; [done|].
    unfold fmul, fdiv. simpl. by destruct rate.
  - unfold zeros. rewrite length_replicate. by eapply lookup_lt_Some.
  - rewrite kde_rate_length. lia.
Qed.

(** ** The non-local likelihood *)

Lemma bc_nth_nth {A} (d : A) (l : list A) j :
  j < length l -> bc_nth d l j = nth j l d.
Proof.
  destruct l as [|a [|b l]]; simpl; try done.
  intros Hj. by replace j with 0 by lia.
Qed.

Lemma add_outer_shape term (ll : mat) (neuron : list Z * vec) T B :
  length ll = T -> Forall (fun row => length row = B) ll ->
  length neuron.1 = T -> length neuron.2 = B ->
  length (KDE.add_outer term ll neuron) = T /\
  Forall (fun row => length row = B) (KDE.add_outer term ll neuron).
Proof.
  intros HT HB Hn1 Hn2. unfold KDE.add_outer. split.
  - rewrite length_zip_with. lia.
  - apply Forall_lookup. intros t row Hrow.
    apply lookup_zip_with_Some in Hrow as (r & c & -> & Hr & _).
    rewrite length_zip_with.
    rewrite (Forall_lookup_1 _ _ _ _ HB Hr). lia.
Qed.

Lemma add_outer_entry term (ll : mat) (neuron : list Z * vec) T B t b :
  length ll = T -> Forall (fun row => length row = B) ll ->
  length neuron.1 = T -> length neuron.2 = B ->
  t < T -> b < B ->
  nth b (nth t (KDE.add_outer term ll neuron) []) NaN =
  fadd (nth b (nth t ll []) NaN)
       (term (of_Z (nth t neuron.1 0%Z)) (nth b neuron.2 NaN)).
Proof.
  intros HT HB Hn1 Hn2 Ht Hb. unfold KDE.add_outer.
  destruct (lookup_lt_is_Some_2 ll t) as [row Hrow]; [lia|].
  destruct (lookup_lt_is_Some_2 neuron.1 t) as [c Hc]; [lia|].
  pose proof (Forall_lookup_1 _ _ _ _ HB Hrow) as Hlen. simpl in Hlen.
  destruct (lookup_lt_is_Some_2 row b) as [l Hl]; [lia|].
  destruct (lookup_lt_is_Some_2 neuron.2 b) as [pf Hpf]; [lia|].
  rewrite (nth_lookup_Some _ _ _ _ Hrow), (nth_lookup_Some _ _ _ _ Hc),
    (nth_lookup_Some _ _ _ _ Hl), (nth_lookup_Some _ _ _ _ Hpf).
  erewrite (nth_lookup_Some _ t); [|by rewrite lookup_zip_with, Hrow, Hc].
  apply nth_lookup_Some. by rewrite lookup_zip_with, Hl, Hpf.
Qed.

(** The loop over the neurons adds, at every time step and bin, the terms
    of the neurons one after the other. *)
Lemma add_outer_fold term neurons (ll : mat) T B :
  length ll = T -> Forall (fun row => length row = B) ll ->
  Forall (fun neuron : list Z * vec =>
            length neuron.1 = T /\ length neuron.2 = B) neurons ->
  length (foldl (KDE.add_outer term) ll neurons) = T /\
  Forall (fun row => length row = B) (foldl (KDE.add_outer term) ll neurons) /\
  forall t b, t < T -> b < B ->
    nth b (nth t (foldl (KDE.add_outer term) ll neurons) []) NaN =
    foldl (fun acc (neuron : list Z * vec) =>
             fadd acc (term (of_Z (nth t neuron.1 0%Z)) (nth b neuron.2 NaN)))
          (nth b (nth t ll []) NaN) neurons.
Proof.
  intros HT HB Hneurons. revert ll HT HB.
  induction Hneurons as [|neuron neurons [Hn1 Hn2] _ IH]; intros ll HT HB; simpl.
  - done.
  - destruct (add_outer_shape term ll neuron T B) as [HT' HB']; try done.
    destruct (IH _ HT' HB') as (? & ? & Hentry).
    split; [done|]. split; [done|]. intros t b Ht Hb.
    rewrite Hentry by done. f_equal. by apply (add_outer_entry _ _ _ T B).
Qed.

Lemma zeros_entry T B t b :
  t < T -> b < B -> nth b (nth t (replicate T (zeros B)) []) NaN = pos_zero.
Proof.
  intros Ht Hb. erewrite (nth_lookup_Some _ t); [|by apply lookup_replicate_2].
  apply nth_lookup_Some. by apply lookup_replicate_2.
Qed.

Lemma neurons_shape (spikes : array2 Z) (fields : array2 float) :
  wf_array2 spikes -> wf_array2 fields ->
  Forall (fun neuron : list Z * vec =>
            length neuron.1 = n_rows spikes /\ length neuron.2 = n_cols fields)
         (zip (columns 0%Z spikes) (rows fields)).
Proof.
  intros [Hrows _] [_ Hcols]. apply Forall_lookup. intros n [col pf] Hn.
  apply lookup_zip_with_Some in Hn as (? & ? & [= <- <-] & Hcol & Hpf).
  apply columns_lookup in Hcol as [_ ->]. simpl. rewrite length_fmap.
  split; [done|]. exact (Forall_lookup_1 _ _ _ _ Hcols Hpf).
Qed.

(** The accumulated array of a non-local prediction. *)
Lemma nonlocal_accumulation term (spikes : array2 Z) (fields : array2 float) :
  wf_array2 spikes -> wf_array2 fields ->
  let ll := foldl (KDE.add_outer term)
                  (replicate (n_rows spikes) (zeros (n_cols fields)))
                  (zip (columns 0%Z spikes) (rows fields)) in
  length ll = n_rows spikes /\
  Forall (fun row => length row = n_cols fields) ll /\
  forall t b, t < n_rows spikes -> b < n_cols fields ->
    nth b (nth t ll []) NaN =
    accumulated term (zip (columns 0%Z spikes) (rows fields)) t b.
Proof.
  intros Hs Hf ll.
  destruct (add_outer_fold term (zip (columns 0%Z spikes) (rows fields))
              (replicate (n_rows spikes) (zeros (n_cols fields)))
              (n_rows spikes) (n_cols fields)) as (HT & HB & Hentry).
  - by rewrite length_replicate.
  - apply Forall_replicate. unfold zeros. by rewrite length_replicate.
  - by apply neurons_shape.
  - split; [done|]. split; [done|]. intros t b Ht Hb.
    unfold ll. rewrite Hentry by done. by rewrite zeros_entry.
Qed.

Lemma rows_with_entry {A} (da : A) f (v : list A) n (a : mat) t b row :
  a !! t = Some row -> b < n -> b < length v -> b < length row ->
  exists row', KDE.rows_with da f v n a !! t = Some row' /\
    length row' = n /\
    row' !! b = Some (f (nth b v da) (nth b row NaN)).
Proof.
  intros Hrow Hb Hv Hr. unfold KDE.rows_with.
  rewrite list_lookup_fmap, Hrow. simpl. eexists. split; [done|].
  rewrite length_fmap, length_seq. split; [done|].
  rewrite list_lookup_fmap, lookup_seq_lt by done. simpl.
  by rewrite !bc_nth_nth.
Qed.

(** Every entry of the non-local KDE likelihood. *)
Lemma kde_nonlocal_entries position spikes (m : KDE.KDEEncodingModel) :
  wf_array2 spikes -> wf_array2 (KDE.place_fields m) ->
  length (KDE.no_spike_part_log_likelihood m) = n_cols (KDE.place_fields m) ->
  length (KDE.is_track_interior m) = n_cols (KDE.place_fields m) ->
  exists ll,
    KDE.predict_sorted_spikes_kde_log_likelihood position spikes m false = Ok ll /\
    length ll = n_rows spikes /\
    forall t b, t < n_rows spikes -> b < n_cols (KDE.place_fields m) ->
      exists row, ll !! t = Some row /\
        length row = n_cols (KDE.place_fields m) /\
        row !! b = Some
          (if nth b (KDE.is_track_interior m) true
           then fsub (accumulated xlogy
                        (zip (columns 0%Z spikes) (rows (KDE.place_fields m))) t b)
                     (nth b (KDE.no_spike_part_log_likelihood m) NaN)
           else f_log EPS).
Proof.
  intros Hs Hf Hno Hint.
  destruct (nonlocal_accumulation xlogy spikes (KDE.place_fields m) Hs Hf)
    as (HT & HB & Hentry).
  unfold KDE.predict_sorted_spikes_kde_log_likelihood.
  unfold broadcast_len. rewrite Hno, Nat.eqb_refl. simpl.
  rewrite Hint, Nat.eqb_refl. simpl.
  eexists. split; [done|]. split.
  { unfold KDE.rows_with. by rewrite !length_fmap. }
  intros t b Ht Hb.
  destruct (lookup_lt_is_Some_2 _ t ltac:(rewrite HT; exact Ht)) as [row Hrow].
  pose proof (Forall_lookup_1 _ _ _ _ HB Hrow) as Hlen. simpl in Hlen.
  destruct (rows_with_entry NaN (fun c l => fsub l c)
              (KDE.no_spike_part_log_likelihood m) (n_cols (KDE.place_fields m))
              _ t b row Hrow) as (row1 & Hrow1 & Hlen1 & Hb1); try lia.
  destruct (rows_with_entry true
              (fun (interior : bool) l => if interior then l else f_log EPS)
              (KDE.is_track_interior m) (n_cols (KDE.place_fields m))
              _ t b row1 Hrow1) as (row2 & Hrow2 & Hlen2 & Hb2); try lia.
  exists row2. split; [done|]. split; [done|].
  rewrite Hb2. rewrite (nth_lookup_Some _ _ _ _ Hb1).
  specialize (Hentry t b Ht Hb). rewrite (nth_lookup_Some _ _ _ _ Hrow) in Hentry.
  by rewrite Hentry.
Qed.

Lemma map_res_total {A B} (f : A -> res B) (P : B -> Prop) xs :
  Forall (fun a => exists b, f a = Ok b /\ P b) xs ->
  exists ys, map_res f xs = Ok ys /\ Forall P ys /\ length ys = length xs.
Proof.
  induction 1 as [|a xs (b & Hb & HP) _ (ys & Hys & HPs & Hlen)]; simpl.
  - exists []. by repeat split.
  - exists (b :: ys). rewrite Hb. simpl. rewrite Hys. simpl.
    repeat split; [by constructor | by rewrite Hlen].
Qed.

Lemma predict_Ok (m : KDE.KDEModel) eval_points :
  chunks_ok (KDE.block_size m) (length eval_points) ->
  exists l, KDE.KDEModel_predict m eval_points = Ok l.
Proof.
  intros [Hbs Hchunk]. unfold KDE.KDEModel_predict.
  destruct (KDE.block_size m) as [k|]; simpl in *;
    rewrite block_kde_spec, Hchunk by done; eauto.
Qed.

(** The fit goes through on well-shaped arrays with at least two neurons,
    whatever the spike counts. *)
Lemma kde_fit_succeeds position spikes centers interior std bs :
  wf_array2 spikes ->
  length position = n_rows spikes ->
  length interior = length centers ->
  2 <= n_cols spikes ->
  chunks_ok bs (count_true interior) ->
  exists m,
    KDE.fit_sorted_spikes_kde_encoding_model position spikes centers interior std bs
      = Ok m.
Proof.
  intros [Hrows _] Hpos Hint Hn Hchunks.
  unfold KDE.fit_sorted_spikes_kde_encoding_model, mask_select.
  rewrite squeeze_long
    by (unfold KDE.mean_axis0; rewrite length_fmap, columns_length; lia).
  rewrite Hint, Nat.eqb_refl. simpl.
  assert (Hsel : length (select interior centers) = count_true interior)
    by (by apply select_length).
  destruct (predict_Ok (KDE.KDEModel_fit std bs position)
              (select interior centers)) as [occ ->]; [by rewrite Hsel|]. simpl.
  destruct (map_res_total
              (KDE.fit_neuron position centers interior std bs occ)
              (fun fitted => length fitted.2 = length centers)
              (zip ((fun col : list Z => KDE.to_bool <$> col)
                      <$> columns 0%Z spikes)
                   (KDE.mean_axis0 spikes)))
    as (fitted & -> & Hfields & Hlen).
  { apply Forall_lookup. intros n [bcol rate] Hzip.
    apply lookup_zip_with_Some in Hzip as (? & ? & [= <- <-] & Hcol & _).
    rewrite list_lookup_fmap in Hcol.
    destruct (columns 0%Z spikes !! n) as [col|] eqn:Hcoln; [|done].
    simpl in Hcol. injection Hcol as <-.
    apply columns_lookup in Hcoln as [_ ->].
    unfold KDE.fit_neuron, mask_select.
    rewrite !length_fmap, Hrows, Hpos, Nat.eqb_refl. simpl.
    rewrite Hint, Nat.eqb_refl. simpl.
    edestruct (predict_Ok
                 (KDE.KDEModel_fit std bs
                    (select (KDE.to_bool <$> ((fun r => nth n r 0%Z) <$> rows spikes))
                            position))
                 (select interior centers)) as [md ->]; [by rewrite Hsel|].
    simpl. eexists. split; [done|]. simpl.
    rewrite scatter_length. unfold zeros. by rewrite length_replicate. }
  simpl.
  rewrite length_zip_with, length_fmap, columns_length in Hlen.
  unfold KDE.mean_axis0 in Hlen. rewrite length_fmap, columns_length in Hlen.
  assert (Hshape : Forall (fun b : vec => length b = length centers) (fitted.*2)).
  { apply Forall_fmap. eapply Forall_impl; [exact Hfields|]. by intros [? ?]. }
  unfold stack.
  destruct (fitted.*2) as [|pf pfs] eqn:Hpfs.
  { apply (f_equal length) in Hpfs. rewrite length_fmap in Hpfs.
    simpl in Hpfs. lia. }
  assert (Hall : forallb (fun b : vec => length b =? length pf) (pf :: pfs) = true).
  { rewrite Forall_forall in Hshape.
    apply forallb_forall. intros b Hb%list_elem_of_In. apply Nat.eqb_eq.
    rewrite (Hshape b Hb). symmetry. apply Hshape. constructor. }
  rewrite Hall. simpl. eauto.
Qed.

(** With a single neuron the fit raises [TypeError]: the squeezed mean rates
    are a 0-d array, which [zip] cannot iterate. *)
Lemma kde_fit_single_neuron position spikes centers interior std bs :
  n_cols spikes = 1 ->
  length interior = length centers ->
  chunks_ok bs (count_true interior) ->
  KDE.fit_sorted_spikes_kde_encoding_model position spikes centers interior std bs
    = Raise TypeError.
Proof.
  intros Hone Hint Hchunks.
  unfold KDE.fit_sorted_spikes_kde_encoding_model, mask_select.
  destruct (squeeze_one (KDE.mean_axis0 spikes)) as [rate ->].
  { unfold KDE.mean_axis0. by rewrite length_fmap, columns_length. }
  rewrite Hint, Nat.eqb_refl. simpl.
  destruct (predict_Ok (KDE.KDEModel_fit std bs position)
              (select interior centers)) as [occ ->]; [|done].
  by rewrite select_length.
Qed.

(** C3. A neuron without a spike at any training time step: the fit goes
    through, the marginal model of the neuron has no sample, its marginal
    density is 0/0 at every interior bin, and its place field is NaN, not
    epsilon, at every interior bin where the occupancy is positive: [clip]
    lets NaN through. *)
Theorem kde_silent_neuron_place_field
  position spikes centers interior std bs n :
  wf_array2 spikes ->
  length position = n_rows spikes ->
  length interior = length centers ->
  2 <= n_cols spikes ->
  chunks_ok bs (count_true interior) ->
  n < n_cols spikes ->
  silent spikes n ->
  exists m pf,
    KDE.fit_sorted_spikes_kde_encoding_model position spikes centers interior std bs
      = Ok m /\
    rows (KDE.place_fields m) !! n = Some pf /\
    forall b occ,
      interior !! b = Some true ->
      KDE.occupancy m !! interior_index interior b = Some occ ->
      is_pos occ = true ->
      pf !! b = Some NaN.
Proof.
  intros Hwf Hpos Hint Hneurons Hchunks Hn Hsilent.
  destruct (kde_fit_succeeds position spikes centers interior std bs)
    as [m Hfit]; try done.
  destruct (kde_fit_neurons _ _ _ _ _ _ _ Hfit) as (Hrows & _).
  destruct (lookup_lt_is_Some_2 (rows (KDE.place_fields m)) n) as [pf Hpf]; [lia|].
  exists m, pf. split; [done|]. split; [done|].
  intros b occ. by eapply silent_neuron_nan.
Qed.

Lemma sum_axis0_lookup (a : array2 float) b :
  b < n_cols a ->
  KDE.sum_axis0 a !! b = Some (fsum ((fun r => nth b r NaN) <$> rows a)).
Proof.
  intros Hb. unfold KDE.sum_axis0, columns.
  rewrite !list_lookup_fmap, lookup_seq_lt by done. done.
Qed.

Lemma sum_axis0_length (a : array2 float) :
  length (KDE.sum_axis0 a) = n_cols a.
Proof. unfold KDE.sum_axis0. by rewrite length_fmap, columns_length. Qed.

(** The shapes of a fitted KDE model: one place-field entry and one entry of
    the no-spike term per bin. *)
Lemma kde_fit_shapes position spikes centers interior std bs m :
  KDE.fit_sorted_spikes_kde_encoding_model position spikes centers interior std bs
    = Ok m ->
  wf_array2 (KDE.place_fields m) /\
  n_cols (KDE.place_fields m) = length interior /\
  length (KDE.no_spike_part_log_likelihood m) = length interior /\
  KDE.is_track_interior m = interior.
Proof.
  intros Hfit.
  destruct (kde_fit_neurons _ _ _ _ _ _ _ Hfit)
    as (Hrows & _ & Hn & Hwf & Hint & Hno).
  destruct (lookup_lt_is_Some_2 (rows (KDE.place_fields m)) 0) as [pf Hpf]; [lia|].
  destruct (kde_fit_neuron _ _ _ _ _ _ _ _ _ Hfit Hpf)
    as (col & rate & model & md & _ & _ & _ & _ & _ & _ & _ & _ & Hscatter).
  destruct Hwf as [Hw1 Hw2].
  pose proof (Forall_lookup_1 _ _ _ _ Hw2 Hpf) as Hlen. simpl in Hlen.
  rewrite Hscatter, scatter_length in Hlen.
  unfold zeros in Hlen. rewrite length_replicate in Hlen.
  rewrite Hno, sum_axis0_length. done.
Qed.

(** C7. The no-spike term kept by the KDE fit is, at every bin, the sum over
    the neurons of their place-field values at the bin; a non-local
    prediction with the fitted model returns, at every time step and every
    interior bin, the log-likelihood accumulated over the neurons minus that
    term, subtracted once. *)
Theorem kde_no_spike_term
  position spikes centers interior std bs m position' spikes' :
  KDE.fit_sorted_spikes_kde_encoding_model position spikes centers interior std bs
    = Ok m ->
  wf_array2 spikes' ->
  (forall b, b < length interior ->
     KDE.no_spike_part_log_likelihood m !! b =
       Some (fsum ((fun pf => nth b pf NaN) <$> rows (KDE.place_fields m)))) /\
  exists ll,
    KDE.predict_sorted_spikes_kde_log_likelihood position' spikes' m false = Ok ll /\
    length ll = n_rows spikes' /\
    forall t b, t < n_rows spikes' -> interior !! b = Some true ->
      exists row, ll !! t = Some row /\
        row !! b = Some
          (fsub (accumulated xlogy
                   (zip (columns 0%Z spikes') (rows (KDE.place_fields m))) t b)
                (nth b (KDE.no_spike_part_log_likelihood m) NaN)).
Proof.
  intros Hfit Hs.
  destruct (kde_fit_shapes _ _ _ _ _ _ _ Hfit) as (Hwf & Hcols & Hno & Hint).
  destruct (kde_fit_neurons _ _ _ _ _ _ _ Hfit) as (_ & _ & _ & _ & _ & Hsum).
  split.
  - intros b Hb. rewrite Hsum. apply sum_axis0_lookup. lia.
  - destruct (kde_nonlocal_entries position' spikes' m Hs Hwf)
      as (ll & Hll & Hlen & Hentry); [lia | rewrite Hint; lia |].
    exists ll. split; [done|]. split; [done|]. intros t b Ht Hb.
    destruct (Hentry t b Ht) as (row & Hrow & _ & Hval).
    { rewrite Hcols. by eapply lookup_lt_Some. }
    exists row. split; [done|]. rewrite Hval, Hint.
    by rewrite (nth_lookup_Some _ _ _ _ Hb).
Qed.

(** C2. [block_kde] against the unblocked [kde], for every block size of at
    least 1: where a chunk holds exactly one evaluation point (block size 1,
    or a final chunk of one point) [block_kde] raises [TypeError], since the
    squeezed density of one point is a 0-d array that
    [dynamic_update_slice] refuses; for every other chunking it returns the
    densities of [kde]. *)
Theorem block_kde_chunks eval_points samples std bs :
  1 <= bs ->
  (singleton_chunk (length eval_points) bs = true ->
   KDE.block_kde eval_points samples std bs = Raise TypeError) /\
  (singleton_chunk (length eval_points) bs = false ->
   KDE.block_kde eval_points samples std bs =
     Ok (kde_points eval_points samples std) /\
   KDE.kde eval_points samples std =
     Rank1 (kde_points eval_points samples std)).
Proof.
  intros Hbs. rewrite block_kde_spec by done.
  split; intros Hchunk; rewrite Hchunk; [done|].
  split; [done|]. rewrite kde_pointwise. apply squeeze_long.
  rewrite kde_points_length. intros Hone.
  revert Hchunk. unfold singleton_chunk. rewrite Hone.
  destruct (decide (bs = 1)) as [->|Hne]; [done|].
  rewrite Nat.mod_small by lia. done.
Qed.
End Properties.

Section GLMProperties.
Context `{Numerics} `{GLM.Externals}.

(** ** The predict transform *)

Lemma fill_rows_length mask (a : mat) c :
  length mask = length a -> length (GLM.fill_rows mask a c) = length a.
Proof. intros Hlen. unfold GLM.fill_rows. rewrite length_zip_with. lia. Qed.

Lemma fill_rows_lookup mask (a : mat) c i (b : bool) row :
  mask !! i = Some b -> a !! i = Some row ->
  GLM.fill_rows mask a c !! i = Some (if b then (fun _ => c) <$> row else row).
Proof.
  intros Hb Hrow. unfold GLM.fill_rows. by rewrite lookup_zip_with, Hb, Hrow.
Qed.

Lemma any_isnan_lookup (a : mat) i row :
  a !! i = Some row -> GLM.any_isnan a !! i = Some (existsb is_nan row).
Proof. intros Hrow. unfold GLM.any_isnan. by rewrite list_lookup_fmap, Hrow. Qed.

Lemma any_isnan_length (a : mat) : length (GLM.any_isnan a) = length a.
Proof. unfold GLM.any_isnan. by rewrite length_fmap. Qed.

(** C10. [make_spline_predict_matrix] writes into the position array of its
    caller: after the call, every row that had a NaN coordinate holds 0.0 in
    all its entries, the other rows are as before, and no other array of the
    store has changed. *)
Theorem predict_matrix_overwrites_position info position (st : GLM.store) a :
  st !! position = Some a ->
  exists st' result a',
    GLM.make_spline_predict_matrix info position st = Some (st', result) /\
    st' !! position = Some a' /\
    length a' = length a /\
    (forall i row, a !! i = Some row ->
       a' !! i = Some (if existsb is_nan row
                       then (fun _ => pos_zero) <$> row else row)) /\
    (forall other, other <> position -> st' !! other = st !! other).
Proof.
  intros Ha. unfold GLM.make_spline_predict_matrix, GLM.atleast_2d.
  rewrite Ha. simpl. do 3 eexists. split; [done|].
  split; [apply lookup_insert_eq|].
  split; [apply fill_rows_length, any_isnan_length|].
  split.
  - intros i row Hrow.
    by apply fill_rows_lookup; [apply any_isnan_lookup|].
  - intros other Hother. by apply lookup_insert_ne.
Qed.

(** C6. Where patsy builds the design matrix of the placeholder positions,
    one row per position, the predict transform returns a design matrix in
    which the row of every position with a NaN coordinate is NaN in all its
    entries; such rows do not make it fail. *)
Theorem predict_matrix_nan_rows info position (st : GLM.store) a built :
  st !! position = Some a ->
  GLM.build_design_matrices info (GLM.fill_rows (GLM.any_isnan a) a pos_zero)
    = Ok built ->
  length built = length a ->
  exists st' design_matrix,
    GLM.make_spline_predict_matrix info position st = Some (st', Ok design_matrix) /\
    length design_matrix = length a /\
    forall i row, a !! i = Some row -> existsb is_nan row = true ->
      exists out, design_matrix !! i = Some out /\
        length out = length (nth i built []) /\
        Forall (fun entry => entry = NaN) out.
Proof.
  intros Ha Hbuilt Hlen. unfold GLM.make_spline_predict_matrix, GLM.atleast_2d.
  rewrite Ha. simpl. rewrite Hbuilt. simpl.
  rewrite any_isnan_length, Hlen, Nat.eqb_refl.
  do 2 eexists. split; [done|].
  split; [by rewrite fill_rows_length by (by rewrite any_isnan_length)|].
  intros i row Hrow Hnan.
  destruct (lookup_lt_is_Some_2 built i) as [brow Hbrow].
  { rewrite Hlen. by eapply lookup_lt_Some. }
  exists ((fun _ => NaN) <$> brow).
  split.
  - rewrite (fill_rows_lookup _ _ _ _ true brow); [done| |done].
    by rewrite (any_isnan_lookup _ _ _ Hrow), Hnan.
  - rewrite length_fmap, (nth_lookup_Some _ _ _ _ Hbrow). split; [done|].
    apply Forall_fmap, Forall_true. done.
Qed.

(** ** The GLM fit *)

Lemma mask_fill_length {A} (mask : list bool) (a : list A) c :
  length (mask_fill mask a c) = length a.
Proof.
  revert a. induction mask as [|b mask IH]; intros [|x a]; simpl; try done.
  by rewrite IH.
Qed.

Lemma mask_fill_lookup {A} (mask : list bool) (a : list A) c i (b : bool) x :
  mask !! i = Some b -> a !! i = Some x ->
  mask_fill mask a c !! i = Some (if b then c else x).
Proof.
  revert a i. induction mask as [|b' mask IH]; intros [|y a] [|i]; simpl;
    try done.
  - by intros [= ->] [= ->].
  - apply IH.
Qed.

(** The place field of one neuron of the GLM fit. *)
Lemma glm_fit_neuron_field design predict weights interior l2 counts coef pf :
  GLM.fit_neuron design predict weights interior l2 counts = Ok (coef, pf) ->
  length pf = length interior /\
  forall b v, pf !! b = Some v ->
    (interior !! b = Some false /\ v = EPS) \/
    (interior !! b = Some true /\ (v = NaN \/ SFleb EPS v = true)).
Proof.
  unfold GLM.fit_neuron.
  destruct (GLM.fit_poisson_regression _ _ _ _) as [coef'|]; simpl; [|done].
  destruct (GLM.np_matvec _ _) as [linear|]; simpl; [|done].
  rewrite length_fmap.
  destruct (Nat.eqb_spec (length interior) (length linear)) as [Hlen|];
    simpl; [|done].
  intros [= <- <-]. split.
  { by rewrite length_fmap, mask_fill_length, length_fmap. }
  intros b v. rewrite list_lookup_fmap.
  destruct (mask_fill _ _ _ !! b) as [r|] eqn:Hr; [|done]. simpl. intros [= <-].
  assert (Hb : b < length interior).
  { apply lookup_lt_Some in Hr.
    by rewrite mask_fill_length, length_fmap, <- Hlen in Hr. }
  destruct (lookup_lt_is_Some_2 interior b Hb) as [c Hc].
  destruct (lookup_lt_is_Some_2 (f_exp <$> linear) b) as [e He].
  { rewrite length_fmap. lia. }
  rewrite (mask_fill_lookup _ _ _ _ (negb c) e) in Hr;
    [|by rewrite list_lookup_fmap, Hc|done].
  injection Hr as <-. destruct c; simpl.
  - right. split; [done|]. apply clip_min_cases.
  - left. split; [done|]. apply clip_min_EPS.
Qed.

Lemma glm_fit_neuron position spikes centers edges interior knots l2
  (st st' : GLM.store) (m : GLM.GLMEncodingModel) n pf :
  GLM.fit_sorted_spikes_glm_jax_encoding_model position spikes centers edges
    interior knots l2 st = Some (st', Ok m) ->
  rows (GLM.place_fields m) !! n = Some pf ->
  exists design predict weights counts coef,
    GLM.fit_neuron design predict weights interior l2 counts = Ok (coef, pf).
Proof.
  unfold GLM.fit_sorted_spikes_glm_jax_encoding_model.
  destruct (GLM.make_spline_design_matrix _ _ _) as [[info design]|]; [|done].
  destruct (GLM.make_spline_predict_matrix _ _ _) as [[st1 predicted]|];
    simpl; [|done].
  intros [= <- Hres]. revert Hres.
  destruct predicted as [predict|]; simpl; [|done].
  destruct (map_res _ _) as [fitted|] eqn:Hfit; simpl; [|done].
  destruct (stack (fitted.*1)) as [coefs|]; simpl; [|done].
  destruct (stack (fitted.*2)) as [fields|] eqn:Hstack; simpl; [|done].
  intros [= <-]. simpl.
  apply stack_Ok in Hstack as (-> & _).
  rewrite list_lookup_fmap.
  destruct (fitted !! n) as [[coef pf']|] eqn:Hn; [|done]. simpl. intros [= ->].
  apply map_res_Ok in Hfit.
  destruct (Forall2_lookup_r _ _ _ _ _ Hfit Hn) as (counts & _ & Hbody).
  eauto 6.
Qed.

Lemma kde_place_field_entries position spikes centers interior std bs m n pf b v :
  KDE.fit_sorted_spikes_kde_encoding_model position spikes centers interior std bs
    = Ok m ->
  rows (KDE.place_fields m) !! n = Some pf ->
  pf !! b = Some v ->
  (interior !! b = Some false /\ v = pos_zero) \/
  (interior !! b = Some true /\ (v = NaN \/ SFleb EPS v = true)).
Proof.
  intros Hfit Hpf Hv.
  destruct (kde_fit_neuron _ _ _ _ _ _ _ _ _ Hfit Hpf)
    as (col & rate & model & md & _ & _ & _ & _ & _ & Hmd & Hocc & _ & ->).
  assert (Hb : b < length interior).
  { apply lookup_lt_Some in Hv. rewrite scatter_length in Hv.
    unfold zeros in Hv. by rewrite length_replicate in Hv. }
  destruct (lookup_lt_is_Some_2 interior b Hb) as [[] Hc].
  - right. split; [done|].
    rewrite scatter_lookup_true in Hv; try done.
    + apply kde_rate_lookup in Hv as (o & d & _ & _ & ->).
      apply clip_min_cases.
    + unfold zeros. by rewrite length_replicate.
    + rewrite kde_rate_length. lia.
  - left. split; [done|].
    rewrite scatter_lookup_false in Hv by done.
    unfold zeros in Hv. apply lookup_replicate in Hv as [-> _]. done.
Qed.

(** C1, as the code has it. GLM backend: every place-field entry at an
    exterior bin is epsilon, every entry at an interior bin is at least
    epsilon unless it is NaN, and no entry is zero. KDE backend: every entry
    at an interior bin is at least epsilon unless it is NaN, and the entries
    at exterior bins are 0.0, the value the place field is created with. *)
Theorem place_field_floor
  position spikes centers interior std bs (mk : KDE.KDEEncodingModel)
  gposition gspikes gcenters edges ginterior knots l2
  (st st' : GLM.store) (mg : GLM.GLMEncodingModel) :
  KDE.fit_sorted_spikes_kde_encoding_model position spikes centers interior std bs
    = Ok mk ->
  GLM.fit_sorted_spikes_glm_jax_encoding_model gposition gspikes gcenters edges
    ginterior knots l2 st = Some (st', Ok mg) ->
  (forall n pf b v,
     rows (GLM.place_fields mg) !! n = Some pf -> pf !! b = Some v ->
     ((ginterior !! b = Some false /\ v = EPS) \/
      (ginterior !! b = Some true /\ (v = NaN \/ SFleb EPS v = true))) /\
     forall s, v <> S754_zero s) /\
  (forall n pf b v,
     rows (KDE.place_fields mk) !! n = Some pf -> pf !! b = Some v ->
     (interior !! b = Some false /\ v = pos_zero) \/
     (interior !! b = Some true /\ (v = NaN \/ SFleb EPS v = true))).
Proof.
  intros Hk Hg. split.
  - intros n pf b v Hpf Hv.
    destruct (glm_fit_neuron _ _ _ _ _ _ _ _ _ _ _ _ Hg Hpf)
      as (design & predict & weights & counts & coef & Hbody).
    destruct (glm_fit_neuron_field _ _ _ _ _ _ _ _ Hbody) as [_ Hfield].
    specialize (Hfield b v Hv). split; [done|].
    intros s ->. pose proof (EPS_above_zero s) as Hzero.
    pose proof EPS_not_nan as Hnan.
    destruct Hfield as [[_ Heq]|[_ [Heq|Hle]]].
    + by rewrite <- Heq in Hnan, Hzero; destruct s.
    + done.
    + congruence.
  - intros n pf b v Hpf Hv. by eapply kde_place_field_entries.
Qed.

(** ** The non-local GLM likelihood *)

(** C5. A non-local prediction returns one row per time step, and in every
    row the entry of every bin outside the track interior is the marker of
    the backend: NaN for the GLM predictor, [log(EPS)] for the KDE
    predictor. *)
Theorem nonlocal_exterior_marker
  position (spikes : array2 Z) (mk : KDE.KDEEncodingModel)
  gposition (mg : GLM.GLMEncodingModel) (st : GLM.store) :
  wf_array2 spikes ->
  wf_array2 (GLM.place_fields mg) ->
  length (GLM.is_track_interior mg) = n_cols (GLM.place_fields mg) ->
  wf_array2 (KDE.place_fields mk) ->
  length (KDE.no_spike_part_log_likelihood mk) = n_cols (KDE.place_fields mk) ->
  length (KDE.is_track_interior mk) = n_cols (KDE.place_fields mk) ->
  (exists ll,
     GLM.predict_sorted_spikes_glm_jax_log_likelihood gposition spikes mg false st
       = Some (st, Ok ll) /\
     length ll = n_rows spikes /\
     forall t b, t < n_rows spikes ->
       GLM.is_track_interior mg !! b = Some false ->
       exists row, ll !! t = Some row /\ row !! b = Some NaN) /\
  (exists ll,
     KDE.predict_sorted_spikes_kde_log_likelihood position spikes mk false = Ok ll /\
     length ll = n_rows spikes /\
     forall t b, t < n_rows spikes ->
       KDE.is_track_interior mk !! b = Some false ->
       exists row, ll !! t = Some row /\ row !! b = Some (f_log EPS)).
Proof.
  intros Hs Hgf Hgi Hkf Hkn Hki. split.
  - destruct (nonlocal_accumulation scipy_poisson_logpmf spikes
                (GLM.place_fields mg) Hs Hgf) as (HT & HB & _).
    unfold GLM.predict_sorted_spikes_glm_jax_log_likelihood.
    rewrite Hgi, Nat.eqb_refl. eexists. split; [done|].
    unfold GLM.fill_columns. rewrite length_fmap. split; [done|].
    intros t b Ht Hb.
    destruct (lookup_lt_is_Some_2 _ t ltac:(rewrite HT; exact Ht)) as [row Hrow].
    pose proof (Forall_lookup_1 _ _ _ _ HB Hrow) as Hlen. simpl in Hlen.
    destruct (lookup_lt_is_Some_2 row b) as [l Hl].
    { rewrite Hlen, <- Hgi. by eapply lookup_lt_Some. }
    eexists. rewrite list_lookup_fmap, Hrow. split; [done|].
    rewrite (mask_fill_lookup _ _ _ _ true l); [done| |done].
    by rewrite list_lookup_fmap, Hb.
  - destruct (kde_nonlocal_entries position spikes mk Hs Hkf Hkn Hki)
      as (ll & Hll & Hlen & Hentry).
    exists ll. split; [done|]. split; [done|]. intros t b Ht Hb.
    destruct (Hentry t b Ht) as (row & Hrow & _ & Hval).
    { rewrite <- Hki. by eapply lookup_lt_Some. }
    exists row. split; [done|].
    by rewrite Hval, (nth_lookup_Some _ _ _ _ Hb).
Qed.

(** ** The Poisson regression *)

Lemma weighted_terms (g : float -> float -> float) (h : vec -> float)
  (design_matrix : mat) (spikes weights : vec) :
  zip_with fmul weights (zip_with g spikes (h <$> design_matrix)) =
  (fun sample : vec * float * float =>
     let '(design_row, count, weight) := sample in
     fmul weight (g count (h design_row)))
    <$> zip (zip design_matrix spikes) weights.
Proof.
  revert spikes weights.
  induction design_matrix as [|row design_matrix IH]; intros spikes weights.
  - destruct spikes, weights; done.
  - destruct spikes as [|count spikes]; [by destruct weights|].
    destruct weights as [|weight weights]; [done|].
    simpl. f_equal. apply IH.
Qed.

Lemma fmap_drop_seq {A B} (f : A -> B) (d : A) (l : list A) k :
  f <$> drop k l = (fun j => f (nth j l d)) <$> seq k (length l - k).
Proof.
  apply list_eq. intros i. rewrite !list_lookup_fmap, lookup_drop.
  destruct (decide (k + i < length l)) as [Hlt|Hge].
  - rewrite lookup_seq_lt by lia. simpl.
    destruct (lookup_lt_is_Some_2 l (k + i) Hlt) as [a Ha].
    by rewrite Ha, (nth_lookup_Some _ _ _ _ Ha).
  - rewrite lookup_seq_ge by lia. by rewrite lookup_ge_None_2 by lia.
Qed.

Lemma sum_from_foldl acc (v : vec) : sum_from acc v = foldl fadd acc v.
Proof.
  revert acc. induction v as [|x v IH]; intros acc; simpl; [done|]. apply IH.
Qed.

Lemma total_fsum (v : vec) : total v = fsum v.
Proof. apply sum_from_foldl. Qed.

Lemma mean_of_fmean (v : vec) : mean_of v = fmean v.
Proof. unfold mean_of, fmean. by rewrite total_fsum. Qed.

Lemma inner_from_foldl acc (design_row coefficients : vec) :
  inner_from acc design_row coefficients =
  foldl fadd acc (zip_with fmul design_row coefficients).
Proof.
  revert acc coefficients.
  induction design_row as [|x design_row IH]; intros acc [|c coefficients];
    simpl; done.
Qed.

(** The rate of the specification is the clipped rate of the code: epsilon
    is a number, so a NaN passes both. *)
Lemma sample_rate_clip (design_row coefficients : vec) :
  sample_rate design_row coefficients =
  clip_min (f_exp (dot design_row coefficients)) EPS.
Proof.
  unfold sample_rate, clip_min, maximum, dot, fsum.
  rewrite inner_from_foldl. fold pos_zero. rewrite EPS_not_nan.
  destruct (f_exp _) as [s|s| |s m e] eqn:Hrate; simpl; try done;
    by destruct (SFltb _ EPS).
Qed.

Lemma n_dims_head (design_matrix : mat) :
  length (default [] (head design_matrix)) = KDE.n_dims design_matrix.
Proof. by destruct design_matrix. Qed.

(** The objective of the code is the objective of the specification. *)
Lemma neglogp_penalised design_matrix spikes weights l2_penalty coefficients :
  GLM.neglogp design_matrix spikes weights l2_penalty coefficients =
  penalised_objective design_matrix spikes weights l2_penalty coefficients.
Proof.
  unfold GLM.neglogp, penalised_objective, GLM.matvec.
  rewrite <- !list_fmap_compose.
  rewrite (weighted_terms jax_poisson_logpmf).
  rewrite (fmap_drop_seq (fun c => fmul c c) NaN).
  replace (total _) with
    (fsum ((fun j => let c := nth j coefficients NaN in fmul c c)
             <$> seq 1 (length coefficients - 1)))
    by (symmetry; apply total_fsum).
  unfold fadd, fmul, minus_one, of_Z. do 2 f_equal.
  etrans; [|symmetry; apply mean_of_fmean]. f_equal.
  apply list_fmap_ext. intros _ [[design_row count] weight] _. simpl.
  by rewrite sample_rate_clip.
Qed.

Lemma initial_condition_Ok design_matrix spikes weights :
  length spikes = length weights ->
  SFeqb (fsum weights) pos_zero = false ->
  1 <= KDE.n_dims design_matrix ->
  GLM.initial_condition design_matrix spikes weights =
  Ok (initial_point design_matrix spikes weights).
Proof.
  intros Hlen Hsum Hdims. unfold GLM.initial_condition, GLM.average.
  rewrite Hlen, Nat.eqb_refl. simpl. rewrite Hsum. simpl.
  unfold GLM.np_zeros.
  destruct (Z.ltb_spec (Z.of_nat (KDE.n_dims design_matrix) - 1) 0); [lia|].
  simpl. unfold initial_point, zeros. rewrite n_dims_head.
  replace (Z.to_nat (Z.of_nat (KDE.n_dims design_matrix) - 1))
    with (KDE.n_dims design_matrix - 1) by lia.
  reflexivity.
Qed.

(** C8. On a design matrix with one row per spike count and per weight, the
    Poisson regression solver hands to the minimiser the objective equal, at
    every coefficient vector with one coefficient per design column, to the
    negated mean over the samples of weight times the Poisson log-PMF of the
    spike count at the rate [exp(design_row . coefficients)] clipped below at
    epsilon, plus the L2 penalty on the coefficients other than the
    intercept, with its gradient, from the initial point made of the log of
    the weighted mean spike count and zeros; it returns the minimiser's
    estimate. *)
Theorem poisson_objective_and_start design_matrix spikes weights l2_penalty :
  length design_matrix = length spikes ->
  length spikes = length weights ->
  SFeqb (total weights) (S754_zero false) = false ->
  1 <= KDE.n_dims design_matrix ->
  let objective := GLM.neglogp design_matrix spikes weights l2_penalty in
  (forall coefficients,
     Forall (fun row => length row = length coefficients) design_matrix ->
     objective coefficients =
     penalised_objective design_matrix spikes weights l2_penalty coefficients) /\
  GLM.fit_poisson_regression design_matrix spikes weights l2_penalty =
    Ok (GLM.x (GLM.minimize objective
                 (initial_point design_matrix spikes weights)
                 (GLM.grad objective))).
Proof.
  intros _ Hlen Hsum Hdims objective. rewrite total_fsum in Hsum. split.
  - intros coefficients _. apply neglogp_penalised.
  - unfold GLM.fit_poisson_regression.
    by rewrite initial_condition_Ok.
Qed.
End GLMProperties.

Section Convergence.
Context `{Numerics}.

End Convergence.

(** * Further behaviour of the KDE module *)

Section KDEBehaviour.
Context `{Numerics}.

Lemma select_lookup {A} (mask : list bool) (a : list A) b :
  mask !! b = Some true ->
  select mask a !! interior_index mask b = a !! b.
Proof.
  unfold interior_index.
  revert a b. induction mask as [|c mask IH]; intros a b; [done|].
  destruct b as [|b]; simpl.
  - intros [= ->]. by destruct a.
  - intros Hb. destruct a as [|x a]; simpl.
    + by destruct c.
    + destruct c; simpl; by apply IH.
Qed.

Lemma predict_points (m : KDE.KDEModel) eval_points l :
  KDE.KDEModel_predict m eval_points = Ok l ->
  l = kde_points eval_points (KDE.samples_ m) (bandwidths (KDE.std m) eval_points).
Proof. unfold KDE.KDEModel_predict. by intros ->%block_kde_Ok. Qed.

Lemma predict_chunks (m : KDE.KDEModel) eval_points l :
  KDE.KDEModel_predict m eval_points = Ok l ->
  chunks_ok (KDE.block_size m) (length eval_points).
Proof.
  unfold KDE.KDEModel_predict, chunks_ok.
  destruct (KDE.block_size m) as [k|]; simpl.
  - destruct k as [|k]; [done|]. rewrite block_kde_spec by lia.
    destruct (singleton_chunk _ _); [done|]. intros _. split; [lia|done].
  - destruct (length eval_points) as [|k] eqn:Hlen; [done|].
    rewrite <- Hlen. rewrite block_kde_spec by lia.
    destruct (singleton_chunk _ _); [done|]. intros _. split; [lia|done].
Qed.

(** What a successful fit has computed. *)
Lemma kde_fit_unfold position spikes centers interior std bs m :
  KDE.fit_sorted_spikes_kde_encoding_model position spikes centers interior std bs
    = Ok m ->
  length interior = length centers /\
  KDE.KDEModel_predict (KDE.KDEModel_fit std bs position) (select interior centers)
    = Ok (KDE.occupancy m) /\
  KDE.occupancy_model m = KDE.KDEModel_fit std bs position /\
  KDE.mean_rates m = Rank1 (KDE.mean_axis0 spikes) /\
  Forall2 (fun neuron fitted =>
             KDE.fit_neuron position centers interior std bs (KDE.occupancy m) neuron
             = Ok fitted)
          (zip ((fun col : list Z => KDE.to_bool <$> col) <$> columns 0%Z spikes)
               (KDE.mean_axis0 spikes))
          (zip (KDE.marginal_models m) (rows (KDE.place_fields m))).
Proof.
  unfold KDE.fit_sorted_spikes_kde_encoding_model.
  remember (squeeze (Rank1 (KDE.mean_axis0 spikes))) as mean_rates eqn:Hsq.
  destruct (mask_select interior centers) as [ic|] eqn:Hic; simpl; [|done].
  apply mask_select_Ok in Hic as [Hlen ->].
  destruct (KDE.KDEModel_predict _ _) as [occ|] eqn:Hocc; simpl; [|done].
  destruct (jiter _) as [rates|] eqn:Hrates; simpl; [|done].
  destruct (map_res _ _) as [fitted|] eqn:Hfit; simpl; [|done].
  destruct (stack _) as [fields|] eqn:Hstack; simpl; [|done].
  intros [= <-]. simpl.
  apply stack_Ok in Hstack as (-> & _). subst mean_rates.
  pose proof (jiter_squeeze _ _ Hrates) as [-> Hone].
  rewrite squeeze_long by done.
  rewrite zip_fst_snd. apply map_res_Ok in Hfit. done.
Qed.

(** X1. On well-formed spike counts and under a block size of at least 1 (or
    [None]) the KDE fit returns a model exactly when the positions have one
    row per time step, the interior mask has one entry per bin center, there
    are at least two neurons, and the block size leaves no chunk of a single
    interior bin (nor, under [None], no interior bin at all). *)
Theorem kde_fit_succeeds_iff position spikes centers interior std bs :
  wf_array2 spikes ->
  (forall k, bs = Some k -> 1 <= k) ->
  (exists m,
     KDE.fit_sorted_spikes_kde_encoding_model position spikes centers interior
       std bs = Ok m) <->
  (length position = n_rows spikes /\
   length interior = length centers /\
   2 <= n_cols spikes /\
   chunks_ok bs (count_true interior)).
Proof.
  intros Hwf _. split.
  - intros [m Hfit].
    destruct (kde_fit_neurons _ _ _ _ _ _ _ Hfit) as (Hrows & _ & Hn & _).
    destruct (kde_fit_unfold _ _ _ _ _ _ _ Hfit) as (Hint & Hocc & _).
    apply predict_chunks in Hocc. simpl in Hocc.
    rewrite select_length in Hocc by done.
    destruct (lookup_lt_is_Some_2 (rows (KDE.place_fields m)) 0) as [pf Hpf]; [lia|].
    destruct (kde_fit_neuron _ _ _ _ _ _ _ _ _ Hfit Hpf)
      as (col & rate & model & md & Hcol & _ & Hlen & _).
    apply columns_lookup in Hcol as [_ ->]. rewrite length_fmap in Hlen.
    destruct Hwf as [Hw _]. split; [lia|]. done.
  - intros (Hpos & Hint & Hn & Hchunks). by apply kde_fit_succeeds.
Qed.

(** X2. With fewer than two neurons the KDE fit raises: [TypeError] for one
    neuron, whose squeezed mean rate is a 0-d array that cannot be iterated,
    and [ValueError] for none, where [stack] gets an empty list. *)
Theorem kde_fit_too_few_neurons position spikes centers interior std bs :
  length interior = length centers ->
  chunks_ok bs (count_true interior) ->
  (n_cols spikes = 1 ->
   KDE.fit_sorted_spikes_kde_encoding_model position spikes centers interior std bs
     = Raise TypeError) /\
  (n_cols spikes = 0 ->
   KDE.fit_sorted_spikes_kde_encoding_model position spikes centers interior std bs
     = Raise ValueError).
Proof.
  intros Hint Hchunks. split; intros Hn.
  - by apply kde_fit_single_neuron.
  - unfold KDE.fit_sorted_spikes_kde_encoding_model, mask_select.
    unfold KDE.mean_axis0, columns. rewrite Hn. simpl.
    rewrite Hint, Nat.eqb_refl. simpl.
    destruct (predict_Ok (KDE.KDEModel_fit std bs position)
                (select interior centers)) as [occ ->]; [|done].
    by rewrite select_length.
Qed.

(** X3. A [KDEModel] fit on no sample does not raise on prediction: it
    returns NaN, the mean over an empty axis, at every evaluation point. *)
Theorem predict_without_samples (m : KDE.KDEModel) eval_points :
  KDE.samples_ m = [] ->
  chunks_ok (KDE.block_size m) (length eval_points) ->
  KDE.KDEModel_predict m eval_points = Ok (replicate (length eval_points) NaN).
Proof.
  intros Hsamples Hchunks.
  destruct (predict_Ok m eval_points Hchunks) as [l Hl].
  rewrite Hl. f_equal. by eapply predict_no_samples.
Qed.

(** X4. Without evaluation points, [KDEModel.predict] returns the empty
    array under every block size of at least 1, and raises [ValueError]
    under the default block size [None], which is then 0, a step [range]
    refuses. *)
Theorem predict_no_eval_points (m : KDE.KDEModel) :
  (forall k, KDE.block_size m = Some k -> 1 <= k ->
     KDE.KDEModel_predict m [] = Ok []) /\
  (KDE.block_size m = None -> KDE.KDEModel_predict m [] = Raise ValueError).
Proof.
  split.
  - intros k Hk Hpos. unfold KDE.KDEModel_predict. rewrite Hk.
    rewrite block_kde_spec by done. unfold singleton_chunk. simpl.
    rewrite Nat.Div0.mod_0_l. by rewrite andb_false_r.
  - intros Hnone. unfold KDE.KDEModel_predict. by rewrite Hnone.
Qed.

Lemma n_dims_uniform (a : mat) D :
  Forall (fun r => length r = D) a -> a <> [] -> KDE.n_dims a = D.
Proof. destruct 1; [done|]. done. Qed.

(** X5. Densities are computed point by point: on evaluation points of one
    width, predicting on two arrays one after the other gives the parts of
    the prediction on their concatenation. *)
Theorem predict_app (m : KDE.KDEModel) (a b : mat) D la lb l :
  Forall (fun r => length r = D) (a ++ b) ->
  KDE.KDEModel_predict m a = Ok la ->
  KDE.KDEModel_predict m b = Ok lb ->
  KDE.KDEModel_predict m (a ++ b) = Ok l ->
  l = la ++ lb.
Proof.
  intros Hwidth Ha Hb Hab.
  apply predict_points in Ha, Hb, Hab. subst.
  apply Forall_app in Hwidth as [Hwa Hwb].
  destruct a as [|ra a]; [done|].
  destruct b as [|rb b]; [by rewrite !app_nil_r|].
  unfold kde_points. rewrite fmap_app.
  assert (Hsd : bandwidths (KDE.std m) ((ra :: a) ++ rb :: b) =
                bandwidths (KDE.std m) (ra :: a) /\
                bandwidths (KDE.std m) (rb :: b) =
                bandwidths (KDE.std m) (ra :: a)).
  { unfold bandwidths. destruct (KDE.std m); [|done]. simpl.
    apply Forall_cons_1 in Hwa as [-> _]. apply Forall_cons_1 in Hwb as [-> _].
    done. }
  destruct Hsd as [-> ->]. done.
Qed.
Lemma kde_points_lookup eval_points samples std k e :
  eval_points !! k = Some e ->
  kde_points eval_points samples std !! k = Some (point_density samples std e).
Proof. intros He. unfold kde_points. by rewrite list_lookup_fmap, He. Qed.

(** X6. For positions and bin centers of [D] columns and no more than [D]
    bandwidths, the place field of a fitted neuron at an interior bin is its
    mean spike count times the ratio of two densities at the bin center, the
    density of the positions where the neuron spiked over the density of all
    positions, with epsilon in place of the ratio where the occupancy is not
    positive, and the product clipped below at epsilon. *)
Theorem kde_place_field_formula
  position spikes centers interior std bs m n b center D :
  KDE.fit_sorted_spikes_kde_encoding_model position spikes centers interior std bs
    = Ok m ->
  n < n_cols spikes ->
  interior !! b = Some true ->
  centers !! b = Some center ->
  Forall (fun r => length r = D) position ->
  Forall (fun r => length r = D) centers ->
  length (bandwidths std (select interior centers)) <= D ->
  let sd := bandwidths std (select interior centers) in
  let occ := point_density position sd center in
  let md := point_density (spike_positions position spikes n) sd center in
  let rate := fmean (of_Z <$> ((fun r => nth n r 0%Z) <$> rows spikes)) in
  exists pf,
    rows (KDE.place_fields m) !! n = Some pf /\
    pf !! b = Some (clip_min (fmul rate (if is_pos occ then fdiv md occ else EPS))
                             EPS).
Proof.
  intros Hfit Hn Hb Hcenter _ _ _ sd occ md rate.
  destruct (kde_fit_unfold _ _ _ _ _ _ _ Hfit) as (Hint & Hocc & _ & _ & Hall).
  apply predict_points in Hocc as Hoccv. simpl in Hoccv. fold sd in Hoccv.
  apply predict_length in Hocc. rewrite select_length in Hocc by done.
  assert (Hneuron :
    zip ((fun col : list Z => KDE.to_bool <$> col) <$> columns 0%Z spikes)
        (KDE.mean_axis0 spikes) !! n =
    Some (KDE.to_bool <$> ((fun r => nth n r 0%Z) <$> rows spikes), rate)).
  { apply lookup_zip_with_Some. do 2 eexists. split; [done|].
    unfold KDE.mean_axis0, columns.
    rewrite !list_lookup_fmap, lookup_seq_lt by done. done. }
  destruct (Forall2_lookup_l _ _ _ _ _ Hall Hneuron) as ([model pf] & Hfitted & Hbody).
  apply lookup_zip_with_Some in Hfitted as (? & ? & [= <- <-] & _ & Hpf).
  exists pf. split; [done|].
  unfold KDE.fit_neuron in Hbody.
  destruct (mask_select _ position) as [sp|] eqn:Hsp; simpl in Hbody; [|done].
  apply mask_select_Ok in Hsp as [Hlen ->].
  rewrite !length_fmap in Hlen.
  unfold mask_select in Hbody.
  replace (length interior =? length centers) with true in Hbody
    by (symmetry; by apply Nat.eqb_eq).
  simpl in Hbody.
  destruct (KDE.KDEModel_predict _ (select interior centers)) as [dens|] eqn:Hmd;
    simpl in Hbody; [|done].
  injection Hbody as _ <-.
  apply predict_points in Hmd as Hmdv. simpl in Hmdv. fold sd in Hmdv.
  rewrite select_spike_positions in Hmdv by done.
  apply predict_length in Hmd. rewrite select_length in Hmd by done.
  pose proof (interior_index_lt _ _ Hb) as Hk.
  assert (Hek : select interior centers !! interior_index interior b = Some center)
    by (by rewrite select_lookup).
  rewrite scatter_lookup_true; try done.
  - unfold KDE.kde_rate. rewrite list_lookup_fmap, lookup_zip_with.
    rewrite Hoccv, Hmdv.
    rewrite !(kde_points_lookup _ _ _ _ _ Hek). done.
  - unfold zeros. rewrite length_replicate. by eapply lookup_lt_Some.
  - rewrite kde_rate_length. lia.
Qed.

(** X7. The shapes of a fitted KDE model: one place field and one marginal
    model per neuron, one place-field entry and one entry of the no-spike
    term per bin, one occupancy value per interior bin, one mean rate per
    neuron. *)
Theorem kde_fit_model_shape position spikes centers interior std bs m :
  KDE.fit_sorted_spikes_kde_encoding_model position spikes centers interior std bs
    = Ok m ->
  wf_array2 (KDE.place_fields m) /\
  n_rows (KDE.place_fields m) = n_cols spikes /\
  n_cols (KDE.place_fields m) = length interior /\
  length (KDE.marginal_models m) = n_cols spikes /\
  length (KDE.occupancy m) = count_true interior /\
  length (KDE.no_spike_part_log_likelihood m) = length interior /\
  exists rates, KDE.mean_rates m = Rank1 rates /\ length rates = n_cols spikes.
Proof.
  intros Hfit.
  destruct (kde_fit_neurons _ _ _ _ _ _ _ Hfit) as (Hrows & Hmodels & _).
  destruct (kde_fit_shapes _ _ _ _ _ _ _ Hfit) as (Hwf & Hcols & Hno & _).
  destruct (kde_fit_unfold _ _ _ _ _ _ _ Hfit) as (Hint & Hocc & _ & Hrates & _).
  apply predict_length in Hocc. rewrite select_length in Hocc by done.
  split; [done|]. destruct Hwf as [Hw _].
  do 5 (split; [first [done | lia]|]).
  eexists. split; [done|].
  unfold KDE.mean_axis0. by rewrite length_fmap, columns_length.
Qed.

Lemma broadcast_with_length {A B C} (da : A) (db : B) (f : A -> B -> C) a b l n :
  broadcast_with da db f a b = Ok l ->
  length a = n -> length b = n -> length l = n.
Proof.
  unfold broadcast_with, broadcast_len. intros Hl Ha Hb. revert Hl.
  rewrite Ha, Hb, Nat.eqb_refl. simpl. intros [= <-].
  by rewrite length_fmap, length_seq.
Qed.

Lemma kde_local_loop position occ neurons acc ll T :
  for_loop neurons (KDE.local_step position occ) acc = Ok ll ->
  length position = T -> length occ = T -> length acc = T ->
  Forall (fun neuron : list Z * KDE.KDEModel * float => length neuron.1.1 = T)
         neurons ->
  length ll = T.
Proof.
  intros Hloop Hpos Hocc Hacc Hneurons. revert acc Hacc Hloop.
  induction Hneurons as [|[[counts model] rate] neurons Hcounts _ IH];
    intros acc Hacc; simpl.
  - by intros [= <-].
  - destruct (KDE.KDEModel_predict model position) as [md|] eqn:Hmd;
      simpl; [|done].
    apply predict_length in Hmd.
    assert (Hrate : length (KDE.kde_rate rate occ md) = T)
      by (rewrite kde_rate_length; lia).
    destruct (broadcast_with 0%Z NaN _ counts _) as [logp|] eqn:Hlogp;
      simpl; [|done].
    apply (broadcast_with_length _ _ _ _ _ _ T) in Hlogp; [|done..].
    destruct (broadcast_with NaN NaN fsub logp _) as [contribution|] eqn:Hc;
      simpl; [|done].
    apply (broadcast_with_length _ _ _ _ _ _ T) in Hc; [|done..].
    destruct (broadcast_with NaN NaN fadd acc contribution) as [acc'|] eqn:Ha;
      simpl; [|done].
    apply (broadcast_with_length _ _ _ _ _ _ T) in Ha; [|done..].
    by apply IH.
Qed.

(** X8. A local KDE prediction that returns, on well-formed spike counts and
    one position per time step, returns one row per time step and one column,
    whatever the number of bins of the model. *)
Theorem kde_local_shape position spikes (m : KDE.KDEEncodingModel) ll :
  wf_array2 spikes ->
  length position = n_rows spikes ->
  KDE.predict_sorted_spikes_kde_log_likelihood position spikes m true = Ok ll ->
  length ll = n_rows spikes /\ Forall (fun row => length row = 1) ll.
Proof.
  intros [Hrows _] Hpos. unfold KDE.predict_sorted_spikes_kde_log_likelihood.
  destruct (KDE.KDEModel_predict _ _) as [occ|] eqn:Hocc; simpl; [|done].
  destruct (jiter _) as [rates|]; simpl; [|done].
  destruct (for_loop _ _ _) as [acc|] eqn:Hloop; simpl; [|done].
  intros [= <-]. rewrite length_fmap. split.
  - apply predict_length in Hocc.
    eapply kde_local_loop; [exact Hloop|done|lia| |].
    + unfold zeros. by rewrite length_replicate.
    + apply Forall_lookup. intros i [[counts model] rate] Hi.
      apply lookup_zip_with_Some in Hi as (? & ? & [= <- <-] & Hi & _).
      apply lookup_zip_with_Some in Hi as (? & ? & [= <- <-] & Hcol & _).
      apply columns_lookup in Hcol as [_ ->]. simpl. by rewrite length_fmap.
  - apply Forall_fmap, Forall_true. done.
Qed.

(** X9. A local KDE prediction raises [TypeError] when the positions leave a
    chunk of a single point under the block size of the occupancy model, as
    a single time step always does. *)
Theorem kde_local_singleton_chunk position spikes (m : KDE.KDEEncodingModel) :
  let k := default (length position) (KDE.block_size (KDE.occupancy_model m)) in
  1 <= k ->
  singleton_chunk (length position) k = true ->
  KDE.predict_sorted_spikes_kde_log_likelihood position spikes m true
    = Raise TypeError.
Proof.
  intros k Hk Hchunk. unfold KDE.predict_sorted_spikes_kde_log_likelihood.
  unfold KDE.KDEModel_predict. fold k.
  change (match KDE.block_size (KDE.occupancy_model m) with
          | Some b => b
          | None => length position
          end) with k.
  by rewrite block_kde_spec, Hchunk.
Qed.
End KDEBehaviour.

(** * Further behaviour of the GLM module *)

Section GLMBehaviour.
Context `{Numerics} `{GLM.Externals}.

(** X10. What [fit_poisson_regression] does on a design matrix with at least
    one row and one row per spike count: [TypeError] when spike counts and
    weights differ in length, [ZeroDivisionError] when the weights sum to
    zero, [ValueError] when the design matrix has no column, and otherwise
    the estimate of the minimiser started from a point with one coefficient
    per design column. *)
Theorem poisson_fit_outcome design_matrix spikes weights l2_penalty :
  design_matrix <> [] ->
  length design_matrix = length spikes ->
  let objective := GLM.neglogp design_matrix spikes weights l2_penalty in
  GLM.fit_poisson_regression design_matrix spikes weights l2_penalty =
    (if negb (length spikes =? length weights) then Raise TypeError
     else if SFeqb (total weights) (S754_zero false) then Raise ZeroDivisionError
     else if KDE.n_dims design_matrix =? 0 then Raise ValueError
     else Ok (GLM.x (GLM.minimize objective
                       (initial_point design_matrix spikes weights)
                       (GLM.grad objective)))) /\
  (KDE.n_dims design_matrix <> 0 ->
   length (initial_point design_matrix spikes weights) = KDE.n_dims design_matrix).
Proof.
  intros _ _ objective. rewrite total_fsum. fold pos_zero. split.
  - unfold GLM.fit_poisson_regression.
    destruct (length spikes =? length weights) eqn:Hlen; simpl.
    2: { unfold GLM.initial_condition, GLM.average. by rewrite Hlen. }
    destruct (SFeqb (fsum weights) pos_zero) eqn:Hsum.
    { unfold GLM.initial_condition, GLM.average. by rewrite Hlen, Hsum. }
    destruct (Nat.eqb_spec (KDE.n_dims design_matrix) 0) as [Hz|Hnz].
    { unfold GLM.initial_condition, GLM.average, GLM.np_zeros.
      by rewrite Hlen, Hsum, Hz. }
    rewrite initial_condition_Ok; [done| by apply Nat.eqb_eq | done | lia].
  - intros Hnz. unfold initial_point. simpl.
    rewrite length_replicate, n_dims_head. lia.
Qed.

Lemma fill_rows_none mask (a : mat) c :
  Forall (fun b => b = false) mask -> length mask = length a ->
  GLM.fill_rows mask a c = a.
Proof.
  intros Hmask. revert a. unfold GLM.fill_rows.
  induction Hmask as [|b mask -> _ IH]; intros [|row a]; simpl; try done.
  intros [= Hlen]. f_equal. by apply IH.
Qed.

Lemma zero_filled_clean (a : mat) :
  Forall (fun b => b = false) (GLM.any_isnan (zero_filled a)).
Proof.
  unfold zero_filled, GLM.fill_rows, GLM.any_isnan.
  induction a as [|row a IH]; simpl; [constructor|].
  constructor; [|exact IH].
  destruct (existsb is_nan row) eqn:Hrow; [|done].
  clear. induction row; simpl; done.
Qed.

Lemma zero_filled_length (a : mat) : length (zero_filled a) = length a.
Proof. unfold zero_filled. apply fill_rows_length, any_isnan_length. Qed.

(** X11. The predict transform is not repeatable on one array: the first
    call leaves the array of the caller without NaN, so a second call on it
    changes the store no more and returns the matrix of patsy as it is, with
    no row marked NaN. *)
Theorem predict_matrix_twice info position (st st1 : GLM.store) a first :
  st !! position = Some a ->
  GLM.make_spline_predict_matrix info position st = Some (st1, first) ->
  st1 !! position = Some (zero_filled a) /\
  GLM.make_spline_predict_matrix info position st1 =
    Some (st1,
          design_matrix <-! GLM.build_design_matrices info (zero_filled a) ;
          if length a =? length design_matrix then Ok design_matrix
          else Raise IndexError).
Proof.
  intros Ha. unfold GLM.make_spline_predict_matrix, GLM.atleast_2d.
  rewrite Ha. simpl. intros [= <- _].
  rewrite lookup_insert_eq. split; [done|]. simpl.
  fold (zero_filled a).
  assert (Hfix : GLM.fill_rows (GLM.any_isnan (zero_filled a)) (zero_filled a)
                               pos_zero = zero_filled a).
  { apply fill_rows_none; [apply zero_filled_clean|apply any_isnan_length]. }
  rewrite Hfix, insert_insert_eq. do 2 f_equal.
  destruct (GLM.build_design_matrices info (zero_filled a)) as [dm|]; simpl; [|done].
  rewrite any_isnan_length, zero_filled_length.
  destruct (Nat.eqb_spec (length a) (length dm)) as [Hlen|]; [|done].
  f_equal. apply fill_rows_none; [apply zero_filled_clean|].
  by rewrite any_isnan_length, zero_filled_length.
Qed.

(** X12. The predict transform touches the rows of NaN positions only: where
    patsy builds one row per position, the row of every position without NaN
    is the row patsy built, and on an array without any NaN the store is
    unchanged and the result is the matrix of patsy. *)
Theorem predict_matrix_clean_rows info position (st : GLM.store) a built :
  st !! position = Some a ->
  GLM.build_design_matrices info (zero_filled a) = Ok built ->
  length built = length a ->
  exists st' design_matrix,
    GLM.make_spline_predict_matrix info position st = Some (st', Ok design_matrix) /\
    (forall i row, a !! i = Some row -> existsb is_nan row = false ->
       design_matrix !! i = built !! i) /\
    (Forall (fun row => existsb is_nan row = false) a ->
     st' = st /\ design_matrix = built).
Proof.
  intros Ha Hbuilt Hlen. unfold GLM.make_spline_predict_matrix, GLM.atleast_2d.
  rewrite Ha. simpl. fold (zero_filled a). rewrite Hbuilt. simpl.
  rewrite any_isnan_length, Hlen, Nat.eqb_refl.
  do 2 eexists. split; [done|]. split.
  - intros i row Hrow Hclean.
    destruct (lookup_lt_is_Some_2 built i) as [brow Hbrow].
    { rewrite Hlen. by eapply lookup_lt_Some. }
    rewrite (fill_rows_lookup _ _ _ _ false brow); [done| |done].
    by rewrite (any_isnan_lookup _ _ _ Hrow), Hclean.
  - intros Hclean.
    assert (Hmask : Forall (fun b => b = false) (GLM.any_isnan a)).
    { unfold GLM.any_isnan. by apply Forall_fmap. }
    split.
    + unfold zero_filled. rewrite fill_rows_none; [|done|apply any_isnan_length].
      by apply insert_id.
    + apply fill_rows_none; [done|]. by rewrite any_isnan_length.
Qed.

(** X13. The non-local GLM likelihood at an interior bin is the sum, over the
    neurons in order and from 0, of the Poisson log-PMF of the spike count of
    the time step at the place-field value of the bin. *)
Theorem glm_nonlocal_interior position (spikes : array2 Z)
  (m : GLM.GLMEncodingModel) (st : GLM.store) :
  wf_array2 spikes ->
  wf_array2 (GLM.place_fields m) ->
  length (GLM.is_track_interior m) = n_cols (GLM.place_fields m) ->
  exists ll,
    GLM.predict_sorted_spikes_glm_jax_log_likelihood position spikes m false st
      = Some (st, Ok ll) /\
    forall t b, t < n_rows spikes ->
      GLM.is_track_interior m !! b = Some true ->
      exists row, ll !! t = Some row /\
        length row = n_cols (GLM.place_fields m) /\
        row !! b = Some
          (accumulated scipy_poisson_logpmf
             (zip (columns 0%Z spikes) (rows (GLM.place_fields m))) t b).
Proof.
  intros Hs Hf Hint.
  destruct (nonlocal_accumulation scipy_poisson_logpmf spikes
              (GLM.place_fields m) Hs Hf) as (HT & HB & Hentry).
  unfold GLM.predict_sorted_spikes_glm_jax_log_likelihood.
  rewrite Hint, Nat.eqb_refl. eexists. split; [done|].
  intros t b Ht Hb.
  destruct (lookup_lt_is_Some_2 _ t ltac:(rewrite HT; exact Ht)) as [row Hrow].
  pose proof (Forall_lookup_1 _ _ _ _ HB Hrow) as Hlen. simpl in Hlen.
  assert (Hbn : b < n_cols (GLM.place_fields m)).
  { rewrite <- Hint. by eapply lookup_lt_Some. }
  destruct (lookup_lt_is_Some_2 row b) as [l Hl]; [lia|].
  unfold GLM.fill_columns. eexists. rewrite list_lookup_fmap, Hrow.
  split; [done|]. rewrite mask_fill_length. split; [done|].
  rewrite (mask_fill_lookup _ _ _ _ false l); [|by rewrite list_lookup_fmap, Hb|done].
  simpl. f_equal. rewrite <- (Hentry t b Ht Hbn).
  by rewrite (nth_lookup_Some _ _ _ _ Hrow), (nth_lookup_Some _ _ _ _ Hl).
Qed.
(** What a successful GLM fit has computed. *)
Lemma glm_fit_unfold position spikes centers edges interior knots l2
  (st st' : GLM.store) (m : GLM.GLMEncodingModel) :
  GLM.fit_sorted_spikes_glm_jax_encoding_model position spikes centers edges
    interior knots l2 st = Some (st', Ok m) ->
  exists design predict fitted,
    GLM.make_spline_design_matrix position edges knots
      = Ok (GLM.emission_design_info m, design) /\
    GLM.make_spline_predict_matrix (GLM.emission_design_info m) centers st
      = Some (st', Ok predict) /\
    Forall2 (fun counts fit =>
               GLM.fit_neuron design predict (replicate (n_rows spikes) one)
                              interior l2 counts = Ok fit)
            (columns 0%Z spikes) fitted /\
    stack (fitted.*1) = Ok (GLM.coefficients m) /\
    stack (fitted.*2) = Ok (GLM.place_fields m) /\
    GLM.is_track_interior m = interior.
Proof.
  unfold GLM.fit_sorted_spikes_glm_jax_encoding_model.
  destruct (GLM.make_spline_design_matrix _ _ _) as [[info design]|]; [|done].
  destruct (GLM.make_spline_predict_matrix _ _ _) as [[st1 predicted]|] eqn:Hp;
    simpl; [|done].
  intros [= <- Hres]. revert Hres.
  destruct predicted as [predict|]; simpl; [|done].
  destruct (map_res _ _) as [fitted|] eqn:Hfit; simpl; [|done].
  destruct (stack (fitted.*1)) as [coefs|] eqn:Hc; simpl; [|done].
  destruct (stack (fitted.*2)) as [fields|] eqn:Hf; simpl; [|done].
  intros [= <-]. simpl. exists design, predict, fitted.
  apply map_res_Ok in Hfit. done.
Qed.

(** X14. A fitted GLM model has one place field per neuron and one
    place-field entry per entry of the interior mask, and a non-local
    prediction with it never raises: on well-formed spike counts it returns
    one row per time step and one column per bin, and leaves the store as it
    is. *)
Theorem glm_fit_then_predict position spikes centers edges interior knots l2
  (st st' : GLM.store) (m : GLM.GLMEncodingModel) position' spikes'
  (st'' : GLM.store) :
  GLM.fit_sorted_spikes_glm_jax_encoding_model position spikes centers edges
    interior knots l2 st = Some (st', Ok m) ->
  wf_array2 spikes' ->
  wf_array2 (GLM.place_fields m) /\
  n_rows (GLM.place_fields m) = n_cols spikes /\
  n_cols (GLM.place_fields m) = length interior /\
  exists ll,
    GLM.predict_sorted_spikes_glm_jax_log_likelihood position' spikes' m false st''
      = Some (st'', Ok ll) /\
    length ll = n_rows spikes' /\
    Forall (fun row => length row = length interior) ll.
Proof.
  intros Hfit Hs.
  destruct (glm_fit_unfold _ _ _ _ _ _ _ _ _ _ Hfit)
    as (design & predict & fitted & _ & _ & Hall & _ & Hstack & Hint).
  apply stack_Ok in Hstack as (Hrows & Hn & Hne & Hwf).
  assert (Hcols : n_cols (GLM.place_fields m) = length interior).
  { destruct (fitted.*2) as [|pf pfs] eqn:Hpfs; [done|].
    destruct Hwf as [_ Hw]. rewrite Hrows in Hw.
    apply Forall_cons_1 in Hw as [<- _].
    assert (Hpf : fitted.*2 !! 0 = Some pf) by (by rewrite Hpfs).
    rewrite list_lookup_fmap in Hpf.
    destruct (fitted !! 0) as [[coef pf']|] eqn:H0f; [|done].
    simpl in Hpf. injection Hpf as ->.
    destruct (Forall2_lookup_r _ _ _ _ _ Hall H0f) as (counts & _ & Hbody).
    by destruct (glm_fit_neuron_field _ _ _ _ _ _ _ _ Hbody) as [-> _]. }
  split; [done|]. split.
  { rewrite Hn, length_fmap. symmetry.
    rewrite <- (columns_length 0%Z spikes). by eapply Forall2_length. }
  split; [done|].
  destruct (nonlocal_accumulation scipy_poisson_logpmf spikes'
              (GLM.place_fields m) Hs Hwf) as (HT & HB & _).
  unfold GLM.predict_sorted_spikes_glm_jax_log_likelihood.
  rewrite Hint, <- Hcols, Nat.eqb_refl. eexists. split; [done|].
  unfold GLM.fill_columns. rewrite length_fmap. split; [done|].
  apply Forall_fmap. eapply Forall_impl; [exact HB|].
  simpl. intros row Hrow. by rewrite mask_fill_length.
Qed.

(** X15. The GLM fit writes into the bin centers of its caller: once the
    design matrix is built, the store returned holds the bin centers with
    every NaN row set to 0.0, whether the fit then returns a model or raises;
    when the design matrix cannot be built, the exception is passed on and
    the store is as before. *)
Theorem glm_fit_store position spikes centers edges interior knots l2
  (st : GLM.store) a :
  st !! centers = Some a ->
  (forall e, GLM.make_spline_design_matrix position edges knots = Raise e ->
     GLM.fit_sorted_spikes_glm_jax_encoding_model position spikes centers edges
       interior knots l2 st = Some (st, Raise e)) /\
  (forall info design,
     GLM.make_spline_design_matrix position edges knots = Ok (info, design) ->
     exists result,
       GLM.fit_sorted_spikes_glm_jax_encoding_model position spikes centers edges
         interior knots l2 st = Some (<[centers := zero_filled a]> st, result)).
Proof.
  intros Ha. unfold GLM.fit_sorted_spikes_glm_jax_encoding_model. split.
  - by intros e ->.
  - intros info design ->.
    unfold GLM.make_spline_predict_matrix, GLM.atleast_2d.
    rewrite Ha. simpl. eauto.
Qed.

Lemma glm_local_loop predict neurons acc ll :
  for_loop neurons (GLM.local_step predict) acc = Ok ll ->
  length ll = length acc.
Proof.
  revert acc. induction neurons as [|neuron neurons IH]; intros acc; simpl.
  - by intros [= <-].
  - unfold GLM.local_step at 1.
    destruct (GLM.np_matvec predict neuron.2) as [linear|]; simpl; [|done].
    destruct (broadcast_with 0%Z NaN _ _ _) as [logp|]; simpl; [|done].
    destruct (broadcast_with NaN NaN fadd acc logp) as [total|]; simpl; [|done].
    destruct (Nat.eqb_spec (length total) (length acc)) as [Hlen|]; simpl; [|done].
    intros Hloop. rewrite <- Hlen. by apply IH.
Qed.

(** X16. A local GLM prediction writes into the positions of its caller,
    where every NaN row becomes 0.0, and when it returns it returns one row
    per time step of the spike counts and one column. *)
Theorem glm_local_prediction position (spikes : array2 Z)
  (m : GLM.GLMEncodingModel) (st st' : GLM.store) a result :
  st !! position = Some a ->
  GLM.predict_sorted_spikes_glm_jax_log_likelihood position spikes m true st
    = Some (st', result) ->
  st' = <[position := zero_filled a]> st /\
  forall ll, result = Ok ll ->
    length ll = n_rows spikes /\ Forall (fun row => length row = 1) ll.
Proof.
  intros Ha. unfold GLM.predict_sorted_spikes_glm_jax_log_likelihood.
  unfold GLM.make_spline_predict_matrix, GLM.atleast_2d.
  rewrite Ha. simpl. intros [= <- <-]. split; [done|].
  intros ll.
  destruct (GLM.build_design_matrices _ _) as [dm|]; simpl; [|done].
  destruct (length (GLM.any_isnan a) =? length dm); simpl; [|done].
  destruct (for_loop _ _ _) as [acc|] eqn:Hloop; simpl; [|done].
  intros [= <-]. apply glm_local_loop in Hloop.
  rewrite length_fmap, Hloop. unfold zeros. rewrite length_replicate.
  split; [done|]. apply Forall_fmap, Forall_true. done.
Qed.

(** X17. Once the design and predict matrices are built, the GLM fit raises
    [ValueError] when the spike counts have no neuron, [stack] getting an
    empty list, and [ZeroDivisionError] when they have neurons but no time
    step, the weights of the regression then summing to zero. *)
Theorem glm_fit_no_data position spikes centers edges interior knots l2
  (st st1 : GLM.store) info design predict :
  GLM.make_spline_design_matrix position edges knots = Ok (info, design) ->
  GLM.make_spline_predict_matrix info centers st = Some (st1, Ok predict) ->
  (n_cols spikes = 0 ->
   GLM.fit_sorted_spikes_glm_jax_encoding_model position spikes centers edges
     interior knots l2 st = Some (st1, Raise ValueError)) /\
  (1 <= n_cols spikes -> n_rows spikes = 0 -> rows spikes = [] ->
   GLM.fit_sorted_spikes_glm_jax_encoding_model position spikes centers edges
     interior knots l2 st = Some (st1, Raise ZeroDivisionError)).
Proof.
  intros Hdesign Hpredict.
  unfold GLM.fit_sorted_spikes_glm_jax_encoding_model.
  rewrite Hdesign, Hpredict. simpl. split.
  - intros Hn. unfold columns. rewrite Hn. done.
  - intros Hn HT Hrows. unfold columns. rewrite HT, Hrows.
    destruct (n_cols spikes) as [|k]; [lia|]. done.
Qed.
End GLMBehaviour.

(** * Instances of the properties *)

Import Binary64 Examples.

(** [EPS64] is 1 / 10^15 rounded to nearest, which is how the literal
    [1e-15] reads. *)
Lemma EPS64_literal : div64 (b64 1 0) (b64 (10 ^ 15) 0) = EPS64.
Proof. evaluate. Qed.

Lemma block_kde_chunks_witness :
  1 <= 1 /\
  KDE.block_kde two_points two_points [f1] 1 = Raise TypeError.
Proof.
  split; [lia|].
  apply (block_kde_chunks two_points two_points [f1] 1); [lia | reflexivity].
Defined.

Lemma kde_marginal_model_samples_witness :
  fit_one_silent = Ok model_one_silent /\
  1 < n_cols spikes_one_silent /\
  exists model,
    KDE.marginal_models model_one_silent !! 1 = Some model /\
    KDE.samples_ model = spike_positions two_points spikes_one_silent 1 /\
    length (KDE.samples_ model) =
      length (filter (fun counts => nth 1 counts 0%Z <> 0%Z)
                     (rows spikes_one_silent)).
Proof.
  split; [vm_compute; reflexivity|]. split; [simpl; lia|].
  apply (kde_marginal_model_samples two_points spikes_one_silent two_points
           [true; true] (KDE.StdScalar f5) (Some 100) model_one_silent 1);
    [vm_compute; reflexivity | simpl; lia].
Defined.

Lemma kde_silent_neuron_place_field_witness :
  wf_array2 spikes_one_silent /\
  length two_points = n_rows spikes_one_silent /\
  length [true; true] = length two_points /\
  2 <= n_cols spikes_one_silent /\
  chunks_ok (Some 100) (count_true [true; true]) /\
  0 < n_cols spikes_one_silent /\
  silent spikes_one_silent 0 /\
  exists m pf,
    KDE.fit_sorted_spikes_kde_encoding_model two_points spikes_one_silent
      two_points [true; true] (KDE.StdScalar f5) (Some 100) = Ok m /\
    rows (KDE.place_fields m) !! 0 = Some pf /\
    forall b occ,
      [true; true] !! b = Some true ->
      KDE.occupancy m !! interior_index [true; true] b = Some occ ->
      is_pos occ = true ->
      pf !! b = Some NaN.
Proof.
  assert (Hwf : wf_array2 spikes_one_silent) by (split; repeat constructor).
  assert (Hchunks : chunks_ok (Some 100) (count_true [true; true]))
    by (split; [simpl; lia | reflexivity]).
  assert (Hsilent : silent spikes_one_silent 0) by repeat constructor.
  repeat (split; [first [done | simpl; lia]|]).
  apply (kde_silent_neuron_place_field two_points spikes_one_silent two_points
           [true; true] (KDE.StdScalar f5) (Some 100) 0);
    first [done | simpl; lia].
Defined.

Lemma kde_no_spike_term_witness :
  fit_exterior = Ok model_exterior /\
  wf_array2 spikes_new /\
  (forall b, b < length [true; true; false] ->
     KDE.no_spike_part_log_likelihood model_exterior !! b =
       Some (fsum ((fun pf => nth b pf NaN)
                     <$> rows (KDE.place_fields model_exterior)))) /\
  exists ll,
    KDE.predict_sorted_spikes_kde_log_likelihood with_gap spikes_new
      model_exterior false = Ok ll /\
    length ll = n_rows spikes_new /\
    forall t b, t < n_rows spikes_new -> [true; true; false] !! b = Some true ->
      exists row, ll !! t = Some row /\
        row !! b = Some
          (fsub (accumulated xlogy
                   (zip (columns 0%Z spikes_new)
                        (rows (KDE.place_fields model_exterior))) t b)
                (nth b (KDE.no_spike_part_log_likelihood model_exterior) NaN)).
Proof.
  split; [evaluate|]. split; [well_formed|].
  apply (kde_no_spike_term two_points spikes_one_silent three_points
           [true; true; false] (KDE.StdScalar f5) (Some 100)
           model_exterior with_gap spikes_new); [evaluate | well_formed].
Defined.

Lemma predict_matrix_overwrites_position_witness :
  caller_store !! track_loc = Some with_gap /\
  exists st' result a',
    @GLM.make_spline_predict_matrix (externals false) tt track_loc caller_store
      = Some (st', result) /\
    st' !! track_loc = Some a' /\
    length a' = length with_gap /\
    (forall i row, with_gap !! i = Some row ->
       a' !! i = Some (if existsb is_nan row
                       then (fun _ => pos_zero) <$> row else row)) /\
    (forall other, other <> track_loc -> st' !! other = caller_store !! other).
Proof.
  split; [evaluate|].
  apply (@predict_matrix_overwrites_position (externals false) tt track_loc
           caller_store with_gap).
  evaluate.
Defined.

Lemma predict_matrix_nan_rows_witness :
  caller_store !! track_loc = Some with_gap /\
  @GLM.build_design_matrices (externals false) tt
     (GLM.fill_rows (GLM.any_isnan with_gap) with_gap pos_zero) = Ok built_gap /\
  length built_gap = length with_gap /\
  exists st' design_matrix,
    @GLM.make_spline_predict_matrix (externals false) tt track_loc caller_store
      = Some (st', Ok design_matrix) /\
    length design_matrix = length with_gap /\
    forall i row, with_gap !! i = Some row -> existsb is_nan row = true ->
      exists out, design_matrix !! i = Some out /\
        length out = length (nth i built_gap []) /\
        Forall (fun entry => entry = NaN) out.
Proof.
  split; [evaluate|]. split; [evaluate|]. split; [evaluate|].
  apply (@predict_matrix_nan_rows (externals false) tt track_loc caller_store
           with_gap built_gap); evaluate.
Defined.

Lemma poisson_objective_and_start_witness :
  length design2 = length counts2 /\
  length counts2 = length weights2 /\
  SFeqb (total weights2) (S754_zero false) = false /\
  1 <= KDE.n_dims design2 /\
  (forall coefficients,
     Forall (fun row => length row = length coefficients) design2 ->
     GLM.neglogp design2 counts2 weights2 l2_small coefficients =
     penalised_objective design2 counts2 weights2 l2_small coefficients) /\
  @GLM.fit_poisson_regression numerics (externals false)
     design2 counts2 weights2 l2_small =
  Ok (GLM.x (@GLM.minimize (externals false)
               (GLM.neglogp design2 counts2 weights2 l2_small)
               (initial_point design2 counts2 weights2)
               (@GLM.grad (externals false)
                  (GLM.neglogp design2 counts2 weights2 l2_small)))).
Proof.
  split; [evaluate|]. split; [evaluate|]. split; [evaluate|].
  split; [vm_compute; lia|].
  refine (@poisson_objective_and_start numerics (externals false)
            design2 counts2 weights2 l2_small _ _ _ _).
  - evaluate.
  - evaluate.
  - evaluate.
  - vm_compute. lia.
Defined.


Lemma place_field_floor_witness :
  fit_exterior = Ok model_exterior /\
  glm_fit_exterior = Some (glm_store_after, Ok glm_model_exterior) /\
  (forall n pf b v,
     rows (GLM.place_fields glm_model_exterior) !! n = Some pf ->
     pf !! b = Some v ->
     (([true; true; false] !! b = Some false /\ v = EPS) \/
      ([true; true; false] !! b = Some true /\
       (v = NaN \/ SFleb EPS v = true))) /\
     forall s, v <> S754_zero s) /\
  (forall n pf b v,
     rows (KDE.place_fields model_exterior) !! n = Some pf ->
     pf !! b = Some v ->
     ([true; true; false] !! b = Some false /\ v = pos_zero) \/
     ([true; true; false] !! b = Some true /\
      (v = NaN \/ SFleb EPS v = true))).
Proof.
  assert (Hglm : glm_fit_exterior = Some (glm_store_after, Ok glm_model_exterior)).
  { assert (Hok : glm_fit_succeeds = true) by evaluate.
    unfold glm_store_after, glm_model_exterior, glm_fit_succeeds in *.
    destruct glm_fit_exterior as [[st [m|e]]|]; try discriminate Hok.
    reflexivity. }
  split; [evaluate|]. split; [exact Hglm|].
  apply (@place_field_floor numerics (externals false)
           two_points spikes_one_silent three_points [true; true; false]
           (KDE.StdScalar f5) (Some 100) model_exterior
           two_points spikes_one_silent centers_loc [] [true; true; false]
           f5 l2_small caller_store glm_store_after glm_model_exterior);
    [evaluate | exact Hglm].
Defined.

Lemma nonlocal_exterior_marker_witness :
  wf_array2 spikes_new /\
  wf_array2 (GLM.place_fields glm_model_exterior) /\
  length (GLM.is_track_interior glm_model_exterior) =
    n_cols (GLM.place_fields glm_model_exterior) /\
  wf_array2 (KDE.place_fields model_exterior) /\
  length (KDE.no_spike_part_log_likelihood model_exterior) =
    n_cols (KDE.place_fields model_exterior) /\
  length (KDE.is_track_interior model_exterior) =
    n_cols (KDE.place_fields model_exterior) /\
  (exists ll,
     GLM.predict_sorted_spikes_glm_jax_log_likelihood track_loc spikes_new
       glm_model_exterior false caller_store = Some (caller_store, Ok ll) /\
     length ll = n_rows spikes_new /\
     forall t b, t < n_rows spikes_new ->
       GLM.is_track_interior glm_model_exterior !! b = Some false ->
       exists row, ll !! t = Some row /\ row !! b = Some NaN) /\
  (exists ll,
     KDE.predict_sorted_spikes_kde_log_likelihood with_gap spikes_new
       model_exterior false = Ok ll /\
     length ll = n_rows spikes_new /\
     forall t b, t < n_rows spikes_new ->
       KDE.is_track_interior model_exterior !! b = Some false ->
       exists row, ll !! t = Some row /\ row !! b = Some (f_log EPS)).
Proof.
  split; [well_formed|]. split; [well_formed|]. split; [evaluate|].
  split; [well_formed|]. split; [evaluate|]. split; [evaluate|].
  apply (@nonlocal_exterior_marker numerics (externals false)
           with_gap spikes_new model_exterior track_loc
           glm_model_exterior caller_store);
    first [evaluate | well_formed].
Defined.

(** * Where the specification and the code part *)

(** C1 as stated fails for the KDE backend: with three bins of which the last
    is off the track, the fitted place field of the second neuron is
    [[1.5, 1.5, 0.0]]; its entry at the exterior bin is zero, below epsilon
    and different from it. *)
Lemma kde_exterior_bin_zero :
  fit_exterior = Ok model_exterior /\
  KDE.is_track_interior model_exterior !! 2 = Some false /\
  rows (KDE.place_fields model_exterior) !! 1 =
    Some [b64 3 (-1); b64 3 (-1); S754_zero false] /\
  SFleb EPS (S754_zero false) = false /\
  S754_zero false <> EPS.
Proof.
  split; [evaluate|]. split; [evaluate|]. split; [evaluate|].
  split; [evaluate|]. discriminate.
Defined.


(** * Instances of the further properties *)

Import MoreExamples.

Lemma glm_fit_exterior_eq :
  glm_fit_exterior = Some (glm_store_after, Ok glm_model_exterior).
Proof.
  assert (Hok : glm_fit_succeeds = true) by evaluate.
  unfold glm_store_after, glm_model_exterior, glm_fit_succeeds in *.
  destruct glm_fit_exterior as [[st [m|e]]|]; try discriminate Hok.
  reflexivity.
Qed.

Lemma kde_fit_succeeds_iff_witness :
  wf_array2 spikes_one_silent /\
  ((exists m,
      KDE.fit_sorted_spikes_kde_encoding_model two_points spikes_one_silent
        two_points [true; true] (KDE.StdScalar f5) (Some 100) = Ok m) <->
   (length two_points = n_rows spikes_one_silent /\
    length [true; true] = length two_points /\
    2 <= n_cols spikes_one_silent /\
    chunks_ok (Some 100) (count_true [true; true]))).
Proof.
  split; [well_formed|].
  apply (kde_fit_succeeds_iff two_points spikes_one_silent two_points
           [true; true] (KDE.StdScalar f5) (Some 100)).
  - well_formed.
  - intros k [= <-]. lia.
Defined.

Lemma kde_fit_too_few_neurons_witness :
  length [true; true] = length two_points /\
  chunks_ok (Some 100) (count_true [true; true]) /\
  n_cols spikes_single = 1 /\
  KDE.fit_sorted_spikes_kde_encoding_model two_points spikes_single two_points
    [true; true] (KDE.StdScalar f5) (Some 100) = Raise TypeError.
Proof.
  assert (Hchunks : chunks_ok (Some 100) (count_true [true; true]))
    by (split; [simpl; lia | reflexivity]).
  split; [reflexivity|]. split; [exact Hchunks|]. split; [reflexivity|].
  apply (proj1 (kde_fit_too_few_neurons two_points spikes_single two_points
                  [true; true] (KDE.StdScalar f5) (Some 100)
                  eq_refl Hchunks)).
  reflexivity.
Defined.

Lemma predict_without_samples_witness :
  KDE.samples_ model_no_sample = [] /\
  chunks_ok (KDE.block_size model_no_sample) (length two_points) /\
  KDE.KDEModel_predict model_no_sample two_points = Ok [NaN; NaN].
Proof.
  assert (Hchunks : chunks_ok (KDE.block_size model_no_sample) (length two_points))
    by (split; [simpl; lia | reflexivity]).
  split; [reflexivity|]. split; [exact Hchunks|].
  apply (predict_without_samples model_no_sample two_points eq_refl Hchunks).
Defined.

Lemma predict_no_eval_points_witness :
  KDE.block_size model_two_points = Some 100 /\ 1 <= 100 /\
  KDE.KDEModel_predict model_two_points [] = Ok [].
Proof.
  split; [reflexivity|]. split; [lia|].
  apply (proj1 (predict_no_eval_points model_two_points) 100); [reflexivity|lia].
Defined.

Lemma predict_app_witness :
  Forall (fun r : vec => length r = 1) (two_points ++ three_points) /\
  KDE.KDEModel_predict model_two_points two_points = Ok density_two /\
  KDE.KDEModel_predict model_two_points three_points = Ok density_three /\
  KDE.KDEModel_predict model_two_points (two_points ++ three_points)
    = Ok density_five /\
  density_five = density_two ++ density_three.
Proof.
  assert (Hwidth : Forall (fun r : vec => length r = 1)
                          (two_points ++ three_points))
    by repeat constructor.
  split; [exact Hwidth|]. split; [evaluate|]. split; [evaluate|].
  split; [evaluate|].
  apply (predict_app model_two_points two_points three_points 1
           density_two density_three density_five Hwidth); evaluate.
Defined.

Lemma kde_place_field_formula_witness :
  fit_one_silent = Ok model_one_silent /\
  1 < n_cols spikes_one_silent /\
  [true; true] !! 0 = Some true /\
  two_points !! 0 = Some [f0] /\
  exists pf,
    rows (KDE.place_fields model_one_silent) !! 1 = Some pf /\
    pf !! 0 = Some
      (clip_min
         (fmul (fmean (of_Z <$> ((fun r => nth 1 r 0%Z) <$> rows spikes_one_silent)))
               (if is_pos (point_density two_points
                             (bandwidths (KDE.StdScalar f5)
                                (select [true; true] two_points)) [f0])
                then fdiv (point_density
                             (spike_positions two_points spikes_one_silent 1)
                             (bandwidths (KDE.StdScalar f5)
                                (select [true; true] two_points)) [f0])
                          (point_density two_points
                             (bandwidths (KDE.StdScalar f5)
                                (select [true; true] two_points)) [f0])
                else EPS))
         EPS).
Proof.
  split; [evaluate|]. split; [simpl; lia|]. split; [reflexivity|].
  split; [reflexivity|].
  apply (kde_place_field_formula two_points spikes_one_silent two_points
           [true; true] (KDE.StdScalar f5) (Some 100) model_one_silent 1 0 [f0] 1);
    [evaluate | simpl; lia | reflexivity | reflexivity
    | repeat constructor | repeat constructor | simpl; lia].
Defined.

Lemma kde_fit_model_shape_witness :
  fit_exterior = Ok model_exterior /\
  wf_array2 (KDE.place_fields model_exterior) /\
  n_rows (KDE.place_fields model_exterior) = n_cols spikes_one_silent /\
  n_cols (KDE.place_fields model_exterior) = length [true; true; false] /\
  length (KDE.marginal_models model_exterior) = n_cols spikes_one_silent /\
  length (KDE.occupancy model_exterior) = count_true [true; true; false] /\
  length (KDE.no_spike_part_log_likelihood model_exterior)
    = length [true; true; false] /\
  exists rates, KDE.mean_rates model_exterior = Rank1 rates /\
                length rates = n_cols spikes_one_silent.
Proof.
  split; [evaluate|].
  apply (kde_fit_model_shape two_points spikes_one_silent three_points
           [true; true; false] (KDE.StdScalar f5) (Some 100) model_exterior).
  evaluate.
Defined.

Lemma kde_local_shape_witness :
  wf_array2 spikes_new /\
  length three_points = n_rows spikes_new /\
  KDE.predict_sorted_spikes_kde_log_likelihood three_points spikes_new
    model_exterior true = Ok local_three /\
  length local_three = n_rows spikes_new /\
  Forall (fun row => length row = 1) local_three.
Proof.
  split; [well_formed|]. split; [reflexivity|]. split; [evaluate|].
  apply (kde_local_shape three_points spikes_new model_exterior local_three);
    [well_formed | reflexivity | evaluate].
Defined.

Lemma kde_local_singleton_chunk_witness :
  1 <= default (length [[f0]])
         (KDE.block_size (KDE.occupancy_model model_exterior)) /\
  singleton_chunk (length [[f0]])
    (default (length [[f0]])
       (KDE.block_size (KDE.occupancy_model model_exterior))) = true /\
  KDE.predict_sorted_spikes_kde_log_likelihood [[f0]] spikes_new
    model_exterior true = Raise TypeError.
Proof.
  split; [vm_compute; lia|]. split; [evaluate|].
  apply (kde_local_singleton_chunk [[f0]] spikes_new model_exterior);
    [vm_compute; lia | evaluate].
Defined.

Lemma poisson_fit_outcome_witness :
  design2 <> [] /\
  length design2 = length counts2 /\
  @GLM.fit_poisson_regression numerics (externals false)
     design2 counts2 weights2 l2_small =
    (if negb (length counts2 =? length weights2) then Raise TypeError
     else if SFeqb (total weights2) (S754_zero false)
          then Raise ZeroDivisionError
     else if KDE.n_dims design2 =? 0 then Raise ValueError
     else Ok (GLM.x (@GLM.minimize (externals false)
                       (GLM.neglogp design2 counts2 weights2 l2_small)
                       (initial_point design2 counts2 weights2)
                       (@GLM.grad (externals false)
                          (GLM.neglogp design2 counts2 weights2 l2_small))))) /\
  (KDE.n_dims design2 <> 0 ->
   length (initial_point design2 counts2 weights2) = KDE.n_dims design2).
Proof.
  assert (Hrows : design2 <> []) by (intros Heq; discriminate Heq).
  split; [exact Hrows|]. split; [reflexivity|].
  exact (@poisson_fit_outcome numerics (externals false)
           design2 counts2 weights2 l2_small Hrows eq_refl).
Defined.

Lemma predict_matrix_twice_witness :
  caller_store !! track_loc = Some with_gap /\
  first_transform = Some (store_after_transform, first_matrix) /\
  store_after_transform !! track_loc = Some (zero_filled with_gap) /\
  @GLM.make_spline_predict_matrix (externals false) tt track_loc
     store_after_transform =
    Some (store_after_transform,
          design_matrix <-!
            @GLM.build_design_matrices (externals false) tt (zero_filled with_gap) ;
          if length with_gap =? length design_matrix then Ok design_matrix
          else Raise IndexError).
Proof.
  split; [evaluate|]. split; [evaluate|].
  apply (@predict_matrix_twice (externals false) tt track_loc caller_store
           store_after_transform with_gap first_matrix); evaluate.
Defined.

Lemma predict_matrix_clean_rows_witness :
  caller_store !! track_loc = Some with_gap /\
  @GLM.build_design_matrices (externals false) tt (zero_filled with_gap)
    = Ok built_gap /\
  length built_gap = length with_gap /\
  exists st' design_matrix,
    @GLM.make_spline_predict_matrix (externals false) tt track_loc caller_store
      = Some (st', Ok design_matrix) /\
    (forall i row, with_gap !! i = Some row -> existsb is_nan row = false ->
       design_matrix !! i = built_gap !! i) /\
    (Forall (fun row => existsb is_nan row = false) with_gap ->
     st' = caller_store /\ design_matrix = built_gap).
Proof.
  split; [evaluate|]. split; [evaluate|]. split; [evaluate|].
  apply (@predict_matrix_clean_rows (externals false) tt track_loc caller_store
           with_gap built_gap); evaluate.
Defined.

Lemma glm_nonlocal_interior_witness :
  wf_array2 spikes_new /\
  wf_array2 (GLM.place_fields glm_model_exterior) /\
  length (GLM.is_track_interior glm_model_exterior) =
    n_cols (GLM.place_fields glm_model_exterior) /\
  exists ll,
    GLM.predict_sorted_spikes_glm_jax_log_likelihood track_loc spikes_new
      glm_model_exterior false caller_store = Some (caller_store, Ok ll) /\
    forall t b, t < n_rows spikes_new ->
      GLM.is_track_interior glm_model_exterior !! b = Some true ->
      exists row, ll !! t = Some row /\
        length row = n_cols (GLM.place_fields glm_model_exterior) /\
        row !! b = Some
          (accumulated scipy_poisson_logpmf
             (zip (columns 0%Z spikes_new)
                  (rows (GLM.place_fields glm_model_exterior))) t b).
Proof.
  split; [well_formed|]. split; [well_formed|]. split; [evaluate|].
  apply (@glm_nonlocal_interior numerics (externals false) track_loc spikes_new
           glm_model_exterior caller_store);
    first [evaluate | well_formed].
Defined.

Lemma glm_fit_then_predict_witness :
  glm_fit_exterior = Some (glm_store_after, Ok glm_model_exterior) /\
  wf_array2 spikes_new /\
  wf_array2 (GLM.place_fields glm_model_exterior) /\
  n_rows (GLM.place_fields glm_model_exterior) = n_cols spikes_one_silent /\
  n_cols (GLM.place_fields glm_model_exterior) = length [true; true; false] /\
  exists ll,
    GLM.predict_sorted_spikes_glm_jax_log_likelihood track_loc spikes_new
      glm_model_exterior false caller_store = Some (caller_store, Ok ll) /\
    length ll = n_rows spikes_new /\
    Forall (fun row => length row = length [true; true; false]) ll.
Proof.
  split; [exact glm_fit_exterior_eq|]. split; [well_formed|].
  apply (@glm_fit_then_predict numerics (externals false)
           two_points spikes_one_silent centers_loc [] [true; true; false]
           f5 l2_small caller_store glm_store_after glm_model_exterior
           track_loc spikes_new caller_store);
    [exact glm_fit_exterior_eq | well_formed].
Defined.

Lemma glm_fit_store_witness :
  caller_store !! centers_loc = Some three_points /\
  @GLM.make_spline_design_matrix (externals false) two_points [] f5
    = Ok (tt, design2) /\
  exists result,
    @GLM.fit_sorted_spikes_glm_jax_encoding_model numerics (externals false)
      two_points spikes_one_silent centers_loc [] [true; true; false]
      f5 l2_small caller_store
    = Some (<[centers_loc := zero_filled three_points]> caller_store, result).
Proof.
  split; [evaluate|]. split; [evaluate|].
  refine (proj2 (@glm_fit_store numerics (externals false)
                   two_points spikes_one_silent centers_loc [] [true; true; false]
                   f5 l2_small caller_store three_points _) tt design2 _);
    evaluate.
Defined.

Lemma glm_local_prediction_witness :
  caller_store !! track_loc = Some with_gap /\
  glm_local = Some (glm_local_store, glm_local_result) /\
  glm_local_store = <[track_loc := zero_filled with_gap]> caller_store /\
  forall ll, glm_local_result = Ok ll ->
    length ll = n_rows spikes_new /\ Forall (fun row => length row = 1) ll.
Proof.
  split; [evaluate|]. split; [evaluate|].
  apply (@glm_local_prediction numerics (externals false) track_loc spikes_new
           glm_model_exterior caller_store glm_local_store with_gap
           glm_local_result); evaluate.
Defined.

Lemma glm_fit_no_data_witness :
  @GLM.make_spline_design_matrix (externals false) [] [] f5 = Ok (tt, []) /\
  @GLM.make_spline_predict_matrix (externals false) tt centers_loc caller_store
    = Some (caller_store, Ok [[f1; f0]; [f1; f1]; [f1; f2]]) /\
  1 <= n_cols spikes_no_time /\ n_rows spikes_no_time = 0 /\
  rows spikes_no_time = [] /\
  @GLM.fit_sorted_spikes_glm_jax_encoding_model numerics (externals false)
    [] spikes_no_time centers_loc [] [true; true; false] f5 l2_small caller_store
  = Some (caller_store, Raise ZeroDivisionError).
Proof.
  split; [evaluate|]. split; [evaluate|]. split; [simpl; lia|].
  split; [reflexivity|]. split; [reflexivity|].
  refine (proj2 (@glm_fit_no_data numerics (externals false)
                   [] spikes_no_time centers_loc [] [true; true; false]
                   f5 l2_small caller_store caller_store tt []
                   [[f1; f0]; [f1; f1]; [f1; f2]] _ _) _ _ _).
  - evaluate.
  - evaluate.
  - simpl. lia.
  - reflexivity.
  - reflexivity.
Defined.
